(** * Vacation planner agent: a shallow embedding of [agent/tools.py] and
    [agent/graph.py], and the properties of its pipeline.

    Modelling conventions.
    - Python [int] is [Z].  Python [float] is idealised as an exact rational
      ([Q]): sums and products are exact, and [round(x, 2)] is rounding to
      the nearest hundredth with ties to the even hundredth.  Binary64
      representation error, infinities other than the [float("inf")] of
      [choose_destination], and NaN are outside the model.
    - Python [str] is [string] (bytes); [lower], [strip], [title] and the
      regular-expression classes act on the ASCII range.
    - A pandas data frame is the list of its rows; [sort_values] is a stable
      sort on the listed keys (no property below depends on the order among
      rows of equal keys); the two CSV files are parameters of a run.
    - The mutable state dictionary is a record threaded through the stages;
      a missing key or a subscript on [None] is an error value.
    - [adjust_itinerary_for_budget] rewrites the days of the itinerary in
      place; here it returns the new itinerary, which the caller stores.  The
      preview that [build_plan] pushes on the trace is a new list of the same
      day objects, so the rewrite shows in that entry: [validate_and_adjust]
      refreshes the days of the latest [build_itinerary] entry of the trace
      from the itinerary it stores ([share_preview]). *)

From Stdlib Require Import ZArith QArith Qround Qabs List String Ascii Bool Lia Lqa.
From Stdlib Require Import Permutation Sorted.
Import ListNotations.
Open Scope Z_scope.

(* ------------------------------------------------------------------ *)
(** ** Numbers *)

(** Nearest integer, ties to even: the rounding rule of Python's [round]. *)
Definition round_half_even (x : Q) : Z :=
  let f := Qfloor x in
  match Qcompare (x - inject_Z f) (1 # 2) with
  | Lt => f
  | Gt => f + 1
  | Eq => if Z.even f then f else f + 1
  end.

(** [round(x, 2)]. *)
Definition round2 (x : Q) : Q :=
  (inject_Z (round_half_even (x * 100)) / 100)%Q.

(** [float(n)] for an [int] [n]. *)
Definition float (n : Z) : Q := inject_Z n.

(** A float that may be [float("inf")]. *)
Inductive xfloat : Type :=
| Fin (q : Q)
| Inf.

(** [x < y] for a finite [x] and a possibly infinite [y]. *)
Definition lt_xfloat (x : Q) (y : xfloat) : bool :=
  match y with
  | Inf => true
  | Fin q => negb (Qle_bool q x)
  end.

(** [range(1, n + 1)]. *)
Definition range1 (n : Z) : list Z :=
  map (fun k => Z.of_nat k + 1) (seq 0 (Z.to_nat n)).

(* ------------------------------------------------------------------ *)
(** ** Strings *)

Definition is_upper (c : ascii) : bool :=
  let n := nat_of_ascii c in (65 <=? n)%nat && (n <=? 90)%nat.

Definition is_lower (c : ascii) : bool :=
  let n := nat_of_ascii c in (97 <=? n)%nat && (n <=? 122)%nat.

Definition is_digit (c : ascii) : bool :=
  let n := nat_of_ascii c in (48 <=? n)%nat && (n <=? 57)%nat.

(** [str.isspace] in the ASCII range: space, \t, \n, \v, \f, \r and the
    separators 28 to 31. *)
Definition is_space (c : ascii) : bool :=
  let n := nat_of_ascii c in
  (n =? 32)%nat || ((9 <=? n)%nat && (n <=? 13)%nat)
  || ((28 <=? n)%nat && (n <=? 31)%nat).

Definition lower_ascii (c : ascii) : ascii :=
  if is_upper c then ascii_of_nat (nat_of_ascii c + 32) else c.

Definition upper_ascii (c : ascii) : ascii :=
  if is_lower c then ascii_of_nat (nat_of_ascii c - 32) else c.

(** [s.lower()]. *)
Fixpoint lower (s : string) : string :=
  match s with
  | EmptyString => EmptyString
  | String c s' => String (lower_ascii c) (lower s')
  end.

(** [s.title()]: a letter is upper-cased after a non-letter and lower-cased
    after a letter. *)
Fixpoint title_from (prev_cased : bool) (s : string) : string :=
  match s with
  | EmptyString => EmptyString
  | String c s' =>
      let cased := is_upper c || is_lower c in
      String (if prev_cased then lower_ascii c else upper_ascii c)
             (title_from cased s')
  end.

Definition title (s : string) : string := title_from false s.

(** [sub in s]. *)
Fixpoint contains (sub s : string) : bool :=
  prefix sub s ||
  match s with
  | EmptyString => false
  | String _ s' => contains sub s'
  end.

(** Python's [isspace] of C, the whitespace that [int] skips. *)
Definition is_c_space (c : ascii) : bool :=
  let n := nat_of_ascii c in
  (n =? 32)%nat || ((9 <=? n)%nat && (n <=? 13)%nat).

Fixpoint lstrip_by (sp : ascii -> bool) (s : string) : string :=
  match s with
  | String c s' => if sp c then lstrip_by sp s' else s
  | EmptyString => EmptyString
  end.

Fixpoint rstrip_by (sp : ascii -> bool) (s : string) : string :=
  match s with
  | EmptyString => EmptyString
  | String c s' =>
      match rstrip_by sp s' with
      | EmptyString => if sp c then EmptyString else String c EmptyString
      | r => String c r
      end
  end.

(** [s.strip()]. *)
Definition strip (s : string) : string := rstrip_by is_space (lstrip_by is_space s).

(** [s.split(",")]: the pieces between the separators; never empty. *)
Fixpoint split_on (sep : ascii) (s : string) : list string :=
  match s with
  | EmptyString => [EmptyString]
  | String c s' =>
      if Ascii.eqb c sep then EmptyString :: split_on sep s'
      else match split_on sep s' with
           | piece :: rest => String c piece :: rest
           | [] => [String c EmptyString]
           end
  end.

(** [x in l] for a list of strings. *)
Definition mem_string (x : string) (l : list string) : bool :=
  existsb (String.eqb x) l.

(** [", ".join(l)]. *)
Fixpoint join (sep : string) (l : list string) : string :=
  match l with
  | [] => EmptyString
  | [x] => x
  | x :: rest => (x ++ sep ++ join sep rest)%string
  end.

(* ------------------------------------------------------------------ *)
(** ** Data frames *)

Section Sorting.
Context {A : Type}.
(** [before x y]: the sort keys of [x] are not greater than those of [y]. *)
Variable before : A -> A -> bool.

Fixpoint insert_sorted (x : A) (l : list A) : list A :=
  match l with
  | [] => [x]
  | y :: l' => if before x y then x :: l else y :: insert_sorted x l'
  end.

(** [df.sort_values(keys)]: rows with equal keys keep their order. *)
Definition sort_values (l : list A) : list A :=
  fold_right insert_sorted [] l.
End Sorting.

(** Key comparison for two sort columns: the first decides unless equal. *)
Definition lex_before (c1 c2 : comparison) : bool :=
  match c1 with
  | Lt => true
  | Gt => false
  | Eq => match c2 with Gt => false | _ => true end
  end.

(* ------------------------------------------------------------------ *)
(** ** Records of [agent/tools.py] *)

(** A row of [data/destinations.csv]; [score] is the column that
    [search_destinations] adds. *)
Record Destination : Type := mkDestination {
  d_city : string;
  d_country : string;
  d_region : string;
  d_style_tags : string;
  avg_lodging_per_night : Q;
  avg_food_per_day : Q;
  avg_local_transport_per_day : Q;
  d_score : option Z
}.

(** A row of [data/attractions.csv]; [match] is the column that
    [build_itinerary] adds when interests are given. *)
Record Attraction : Type := mkAttraction {
  a_city : string;
  a_name : string;
  a_tag : string;
  typical_hours : Q;
  cost_est : Q;
  a_match : option Z
}.

Record Concept : Type := mkConcept {
  c_title : string;
  c_city : string;
  c_why : string;
  c_destination : Destination
}.

Record Day : Type := mkDay {
  day : Z;
  items : list Attraction
}.

Record Itinerary : Type := mkItinerary {
  it_city : string;
  it_days : Z;
  it_pace : string;
  plan : list Day
}.

(** The dictionary returned by [estimate_budget]. *)
Record BaseBudget : Type := mkBaseBudget {
  b_lodging : Q;
  b_food : Q;
  b_local_transport : Q;
  b_flights_est : Q;
  b_total_est : Q
}.

Record Constraints : Type := mkConstraints {
  origin : string;
  days : Z;
  travelers : Z;
  budget : Z;
  region : option string;
  pace : string;
  interests : list string;
  month_hint : option string;
  flight_est_per_person : Q
}.

(* ------------------------------------------------------------------ *)
(** ** [agent/tools.py] *)

Definition set_score (s : Z) (d : Destination) : Destination :=
  mkDestination (d_city d) (d_country d) (d_region d) (d_style_tags d)
    (avg_lodging_per_night d) (avg_food_per_day d)
    (avg_local_transport_per_day d) (Some s).

Definition score_or_zero (d : Destination) : Z :=
  match d_score d with Some s => s | None => 0 end.

(** The inner [score_tags]: how many interests are among the row's tags. *)
Definition score_tags (interests : list string) (row : Destination) : Z :=
  let tags := map strip (split_on "," (lower (d_style_tags row))) in
  Z.of_nat (List.length (filter (fun i => mem_string (lower i) tags) interests)).

(** Sort order of [search_destinations]: score descending, then lodging
    price ascending. *)
Definition dest_before (x y : Destination) : bool :=
  lex_before (Z.compare (score_or_zero y) (score_or_zero x))
             (Qcompare (avg_lodging_per_night x) (avg_lodging_per_night y)).

Definition truthy (s : option string) : bool :=
  match s with
  | Some (String _ _) => true
  | _ => false
  end.

Definition search_destinations (DEST_CSV : list Destination)
    (region : option string) (interests : list string) : list Destination :=
  let df :=
    match region with
    | Some r =>
        if truthy region
        then filter (fun row => String.eqb (lower (d_region row)) (lower r)) DEST_CSV
        else DEST_CSV
    | None => DEST_CSV
    end in
  let df := map (fun row => set_score (score_tags interests row) row) df in
  let df := sort_values dest_before df in
  firstn 4 df.

Definition propose_trip_concepts (constraints : Constraints)
    (candidates : list Destination) : list Concept :=
  let interests := interests constraints in
  let pace := pace constraints in
  map (fun c =>
         let city := d_city c in
         let tags := d_style_tags c in
         mkConcept
           (city ++ " — " ++ pace ++ " pace, aligned with "
              ++ match interests with
                 | [] => "general sightseeing"
                 | _ => join ", " interests
                 end)%string
           city
           ("Tags: " ++ tags
              ++ ". Good fit for budget and interests based on dataset.")%string
           c)
      candidates.

Definition set_match (m : Z) (a : Attraction) : Attraction :=
  mkAttraction (a_city a) (a_name a) (a_tag a) (typical_hours a) (cost_est a)
    (Some m).

Definition match_or_zero (a : Attraction) : Z :=
  match a_match a with Some m => m | None => 0 end.

(** Sort orders of [build_itinerary]. *)
Definition attr_before_match_cost (x y : Attraction) : bool :=
  lex_before (Z.compare (match_or_zero y) (match_or_zero x))
             (Qcompare (cost_est x) (cost_est y)).

Definition attr_before_cost (x y : Attraction) : bool :=
  Qle_bool (cost_est x) (cost_est y).

(** [{"slow": 2, "medium": 3, "fast": 4}.get(pace, 3)]. *)
Definition blocks_per_day (pace : string) : nat :=
  if String.eqb pace "slow" then 2%nat
  else if String.eqb pace "medium" then 3%nat
  else if String.eqb pace "fast" then 4%nat
  else 3%nat.

(** The inner loop [for _ in range(blocks_per_day)]: from index [idx], the
    day's items (in reverse) and the index after the loop. *)
Fixpoint fill_day (items : list Attraction) (blocks : nat) (idx : nat)
    (day_items : list Attraction) : list Attraction * nat :=
  match blocks with
  | O => (day_items, idx)
  | S blocks' =>
      match nth_error items idx with
      | None => (day_items, idx)                       (* break *)
      | Some it => fill_day items blocks' (S idx) (day_items ++ [it])
      end
  end.

(** The outer loop [for d in range(1, days + 1)]. *)
Fixpoint fill_days (items : list Attraction) (blocks : nat) (ds : list Z)
    (idx : nat) : list Day :=
  match ds with
  | [] => []
  | d :: ds' =>
      let '(day_items, idx') := fill_day items blocks idx [] in
      mkDay d day_items :: fill_days items blocks ds' idx'
  end.

Definition build_itinerary (ATTR_CSV : list Attraction) (city : string)
    (days : Z) (interests : list string) (pace : string) : Itinerary :=
  let df := filter (fun row => String.eqb (lower (a_city row)) (lower city)) ATTR_CSV in
  let df :=
    match interests with
    | _ :: _ =>
        let df :=
          map (fun row =>
                 let t := lower (a_tag row) in
                 set_match (if existsb (fun i => contains (lower i) t) interests
                            then 1 else 0) row) df in
        sort_values attr_before_match_cost df
    | [] => sort_values attr_before_cost df
    end in
  let items := df in
  let plan := fill_days items (blocks_per_day pace) (range1 days) 0 in
  mkItinerary city days pace plan.

Definition estimate_budget (destination : Destination) (days travelers : Z)
    (flight_est_per_person : Q) : BaseBudget :=
  let lodging := (avg_lodging_per_night destination * float (days - 1))%Q in
  let food := (avg_food_per_day destination * float days * float travelers)%Q in
  let local := (avg_local_transport_per_day destination * float days * float travelers)%Q in
  let flights := (flight_est_per_person * float travelers)%Q in
  let total := (lodging + food + local + flights)%Q in
  mkBaseBudget (round2 lodging) (round2 food) (round2 local) (round2 flights)
    (round2 total).

(** The running [total] of [estimate_activity_cost] over the items of a day
    and over the days of a plan. *)
Definition add_costs (total : Q) (its : list Attraction) : Q :=
  fold_left (fun t it => (t + cost_est it)%Q) its total.

Definition add_day_costs (total : Q) (ds : list Day) : Q :=
  fold_left (fun t d => add_costs t (items d)) ds total.

Definition estimate_activity_cost (itinerary : Itinerary) : Q :=
  round2 (add_day_costs 0 (plan itinerary)).

(** The inner loop of [adjust_itinerary_for_budget]: the kept items of one
    day and the counter after it. *)
Fixpoint adjust_items (max_paid_activities : Z) (its : list Attraction)
    (paid_seen : Z) (new_items : list Attraction) : list Attraction * Z :=
  match its with
  | [] => (new_items, paid_seen)
  | it :: rest =>
      let cost := cost_est it in
      if Qle_bool cost 0
      then adjust_items max_paid_activities rest paid_seen (new_items ++ [it])
      else if paid_seen <? max_paid_activities
      then adjust_items max_paid_activities rest (paid_seen + 1) (new_items ++ [it])
      else adjust_items max_paid_activities rest paid_seen new_items
  end.

(** The outer loop of [adjust_itinerary_for_budget]. *)
Fixpoint adjust_days (max_paid_activities : Z) (ds : list Day) (paid_seen : Z)
    : list Day :=
  match ds with
  | [] => []
  | d :: ds' =>
      let '(new_items, paid_seen') :=
        adjust_items max_paid_activities (items d) paid_seen [] in
      mkDay (day d) new_items :: adjust_days max_paid_activities ds' paid_seen'
  end.

Definition adjust_itinerary_for_budget (itinerary : Itinerary)
    (max_paid_activities : Z) : Itinerary :=
  mkItinerary (it_city itinerary) (it_days itinerary) (it_pace itinerary)
    (adjust_days max_paid_activities (plan itinerary) 0).

Definition build_checklist (constraints : Constraints) (destination : Destination)
    : list (list (string + Z)) :=
  let city := d_city destination in
  let days := days constraints in
  [ [inl "Confirm travel dates and time off for "; inr days; inl " days"];
    [inl "Book flights to "; inl city; inl " (compare 2–3 options)"];
    [inl "Book lodging near a transit-friendly area"];
    [inl "Save key attractions to a map list"];
    [inl "Set a daily spend cap and track expenses"];
    [inl "Prepare documents (passport/ID, cards, insurance as needed)"];
    [inl "Build a backup plan (weather / closures / fatigue day)"] ]%string.

(* ------------------------------------------------------------------ *)
(** ** Regular expressions: the fragment of [re] that [parse_request] uses *)

Inductive regex : Type :=
| Lit (c : ascii)                              (* a literal character *)
| Digit                                        (* \d *)
| Space                                        (* \s *)
| WordB                                        (* \b *)
| Cat (r1 r2 : regex)                          (* r1 r2 *)
| Alt (r1 r2 : regex)                          (* r1|r2 *)
| Rep (r : regex) (lo : nat) (hi : option nat) (* greedy r{lo,hi} *)
| Group (g : nat) (r : regex).                 (* the g-th ( ... ) *)

(** Captured groups, most recent first. *)
Definition captures : Type := list (nat * list ascii).

Fixpoint group (caps : captures) (g : nat) : option (list ascii) :=
  match caps with
  | [] => None
  | (g', t) :: caps' => if Nat.eqb g g' then Some t else group caps' g
  end.

Definition is_word (c : ascii) : bool :=
  is_upper c || is_lower c || is_digit c || Ascii.eqb c "_".

Definition is_word_opt (c : option ascii) : bool :=
  match c with Some c => is_word c | None => false end.

(** The character before the position reached after consuming [consumed]. *)
Definition last_char (prev : option ascii) (consumed : list ascii) : option ascii :=
  match rev consumed with
  | c :: _ => Some c
  | [] => prev
  end.

(** A way to match: the text consumed, the text left, the groups. *)
Definition success : Type := list ascii * list ascii * captures.

(** A greedy repetition of a matcher [m1], at most [n] more times and at
    least [lo] more times: one more iteration is tried before stopping. *)
Fixpoint iterate (m1 : option ascii -> list ascii -> captures -> list success)
    (n lo : nat) (prev : option ascii) (rest : list ascii) (caps : captures)
    {struct n} : list success :=
  let stop := if Nat.eqb lo 0 then [([], rest, caps)] else [] in
  match n with
  | O => stop
  | S n' =>
      flat_map
        (fun '(c1, rest1, caps1) =>
           match c1, lo with
           | [], O => []               (* no empty iteration once lo is met *)
           | _, _ =>
               map (fun '(c2, rest2, caps2) => (c1 ++ c2, rest2, caps2))
                   (iterate m1 n' (Nat.pred lo) (last_char prev c1) rest1 caps1)
           end)
        (m1 prev rest caps)
      ++ stop
  end.

(** All the ways [r] matches at a position, in the order in which a
    backtracking matcher tries them: [prev] is the character before the
    position, [rest] the text from it. *)
Fixpoint matches (r : regex) (prev : option ascii) (rest : list ascii)
    (caps : captures) : list success :=
  match r with
  | Lit c =>
      match rest with
      | c' :: t => if Ascii.eqb c' c then [([c'], t, caps)] else []
      | [] => []
      end
  | Digit =>
      match rest with
      | c' :: t => if is_digit c' then [([c'], t, caps)] else []
      | [] => []
      end
  | Space =>
      match rest with
      | c' :: t => if is_space c' then [([c'], t, caps)] else []
      | [] => []
      end
  | WordB =>
      if xorb (is_word_opt prev) (is_word_opt (hd_error rest))
      then [([], rest, caps)] else []
  | Cat r1 r2 =>
      flat_map
        (fun '(c1, rest1, caps1) =>
           map (fun '(c2, rest2, caps2) => (c1 ++ c2, rest2, caps2))
               (matches r2 (last_char prev c1) rest1 caps1))
        (matches r1 prev rest caps)
  | Alt r1 r2 => matches r1 prev rest caps ++ matches r2 prev rest caps
  | Group g r1 =>
      map (fun '(c, rest1, caps1) => (c, rest1, (g, c) :: caps1))
          (matches r1 prev rest caps)
  | Rep r1 lo hi =>
      iterate (matches r1)
        (match hi with Some h => h | None => List.length rest end)
        lo prev rest caps
  end.

(** The scan of [re.search]: the first way to match at the leftmost position
    that has one. *)
Fixpoint search_from (r : regex) (prev : option ascii) (rest : list ascii)
    : option captures :=
  match matches r prev rest [] with
  | (_, _, caps) :: _ => Some caps
  | [] =>
      match rest with
      | c :: t => search_from r (Some c) t
      | [] => None
      end
  end.

(** [re.search(r, text)]. *)
Definition re_search (r : regex) (text : string) : option captures :=
  search_from r None (list_ascii_of_string text).

(** [m.group(g)]. *)
Definition m_group (m : captures) (g : nat) : option string :=
  option_map string_of_list_ascii (group m g).

(** A literal word. *)
Fixpoint lit (s : string) : regex :=
  match s with
  | EmptyString => Rep Space 0 (Some 0%nat)
  | String c EmptyString => Lit c
  | String c s' => Cat (Lit c) (lit s')
  end.

Fixpoint cat (rs : list regex) : regex :=
  match rs with
  | [] => Rep Space 0 (Some 0%nat)
  | [r] => r
  | r :: rs' => Cat r (cat rs')
  end.

Definition star (r : regex) : regex := Rep r 0 None.
Definition plus (r : regex) : regex := Rep r 1 None.
Definition opt (r : regex) : regex := Rep r 0 (Some 1%nat).
Definition digits (g lo hi : nat) : regex := Group g (Rep Digit lo (Some hi)).

(** [\b(\d{1,2})\s*-\s*day\b|\b(\d{1,2})\s*day\b] *)
Definition re_days : regex :=
  Alt (cat [WordB; digits 1 1 2; star Space; Lit "-"; star Space; lit "day"; WordB])
      (cat [WordB; digits 2 1 2; star Space; lit "day"; WordB]).

(** [\bbudget\s*\$?\s*(\d{3,6})\b|\bunder\s*\$?\s*(\d{3,6})\b] *)
Definition re_budget : regex :=
  Alt (cat [WordB; lit "budget"; star Space; opt (Lit "$"); star Space;
            digits 1 3 6; WordB])
      (cat [WordB; lit "under"; star Space; opt (Lit "$"); star Space;
            digits 2 3 6; WordB]).

(** [\bfor\s+(\d{1,2})\s+(people|persons|travelers)\b] *)
Definition re_travelers : regex :=
  cat [WordB; lit "for"; plus Space; digits 1 1 2; plus Space;
       Group 2 (Alt (lit "people") (Alt (lit "persons") (lit "travelers")));
       WordB].

(** The value of a string of decimal digits, most significant first. *)
Fixpoint digits_value (acc : Z) (s : list ascii) : option Z :=
  match s with
  | [] => Some acc
  | c :: s' =>
      if is_digit c
      then digits_value (10 * acc + (Z.of_nat (nat_of_ascii c) - 48)) s'
      else if Ascii.eqb c "_"
      then match s' with
           | d :: _ => if is_digit d then digits_value acc s' else None
           | [] => None
           end
      else None
  end.

(** [int(s)] for a string: surrounding whitespace, an optional sign, then
    digits, with single underscores allowed between digits; [None] stands
    for [ValueError]. *)
Definition int_of_string (s : string) : option Z :=
  match list_ascii_of_string (rstrip_by is_c_space (lstrip_by is_c_space s)) with
  | [] => None
  | c :: t =>
      let body (l : list ascii) :=
        match l with
        | d :: _ => if is_digit d then digits_value 0 l else None
        | [] => None
        end in
      if Ascii.eqb c "-" then option_map Z.opp (body t)
      else if Ascii.eqb c "+" then body t
      else body (c :: t)
  end.

(** [_safe_int]: [int(x)], or the default when [int] raises ([x] is [None]
    or not a number). *)
Definition _safe_int (x : option string) (default : Z) : Z :=
  match x with
  | Some s => match int_of_string s with Some v => v | None => default end
  | None => default
  end.

(** [a or b] for optional strings. *)
Definition or_else (a b : option string) : option string :=
  if truthy a then a else b.

(* ------------------------------------------------------------------ *)
(** ** [agent/state.py] and the state of a run *)

(** The dictionary built by [compute_budget] and [validate_and_adjust]. *)
Record Budget : Type := mkBudget {
  lodging : Q;
  food : Q;
  local_transport : Q;
  flights_est : Q;
  total_est : Q;
  activities_est : Q;
  grand_total_est : Q;
  within_budget : bool
}.

(** A piece of formatted text: the text of a number is not modelled, an
    interpolated value stays a value. *)
Inductive piece : Type :=
| Text (s : string)
| IntV (z : Z)
| FloatV (q : Q)
| BoolV (b : bool).

(** An entry of [history]; its constructor is the pushing node. *)
Inductive HistoryEntry : Type :=
| H_parse_request (constraints : Constraints)
| H_propose_options (options : list Concept)
| H_choose_destination (selected_destination : option Destination)
                       (rough_total : xfloat)
| H_build_itinerary (itinerary_preview : list Day)
| H_estimate_budget (budget : Budget)
| H_validate_adjust_no_change
| H_validate_adjust_reduced (max_paid : Z) (new_budget : Budget)
| H_finalize (final_plan_preview : list piece).

Definition node (h : HistoryEntry) : string :=
  match h with
  | H_parse_request _ => "parse_request"
  | H_propose_options _ => "propose_options"
  | H_choose_destination _ _ => "choose_destination"
  | H_build_itinerary _ => "build_itinerary"
  | H_estimate_budget _ => "estimate_budget"
  | H_validate_adjust_no_change => "validate_adjust"
  | H_validate_adjust_reduced _ _ => "validate_adjust"
  | H_finalize _ => "finalize"
  end.

(** [AgentState]: every key may be absent ([total=False]); a key holding
    [None] is [Some None]. *)
Record AgentState : Type := mkState {
  st_user_request : option string;
  st_constraints : option Constraints;
  st_trip_options : option (list Concept);
  st_selected_destination : option (option Destination);
  st_itinerary : option Itinerary;
  st_budget : option Budget;
  st_checklist : option (list (list (string + Z)));
  st_final_plan : option (list piece);
  st_history : list HistoryEntry
}.

Inductive error : Type :=
| KeyError (key : string)
| TypeError (what : string).

Inductive result (A : Type) : Type :=
| Ok (a : A)
| Raise (e : error).
Arguments Ok {A} a.
Arguments Raise {A} e.

Definition bind {A B : Type} (r : result A) (k : A -> result B) : result B :=
  match r with
  | Ok a => k a
  | Raise e => Raise e
  end.

Notation "'let*' x ':=' r 'in' k" := (bind r (fun x => k))
  (at level 10, x pattern, r at level 100, k at level 200).

(** [d[key]] on the state dictionary. *)
Definition subscript {A : Type} (key : string) (v : option A) : result A :=
  match v with
  | Some a => Ok a
  | None => Raise (KeyError key)
  end.

(** [dest[...]] where [dest] may be [None]. *)
Definition not_none {A : Type} (v : option A) : result A :=
  match v with
  | Some a => Ok a
  | None => Raise (TypeError "'NoneType' object is not subscriptable")
  end.

Definition set_constraints (c : Constraints) (s : AgentState) : AgentState :=
  mkState (st_user_request s) (Some c) (st_trip_options s)
    (st_selected_destination s) (st_itinerary s) (st_budget s)
    (st_checklist s) (st_final_plan s) (st_history s).

Definition set_trip_options (o : list Concept) (s : AgentState) : AgentState :=
  mkState (st_user_request s) (st_constraints s) (Some o)
    (st_selected_destination s) (st_itinerary s) (st_budget s)
    (st_checklist s) (st_final_plan s) (st_history s).

Definition set_selected_destination (d : option Destination) (s : AgentState)
    : AgentState :=
  mkState (st_user_request s) (st_constraints s) (st_trip_options s)
    (Some d) (st_itinerary s) (st_budget s)
    (st_checklist s) (st_final_plan s) (st_history s).

Definition set_itinerary (i : Itinerary) (s : AgentState) : AgentState :=
  mkState (st_user_request s) (st_constraints s) (st_trip_options s)
    (st_selected_destination s) (Some i) (st_budget s)
    (st_checklist s) (st_final_plan s) (st_history s).

Definition set_budget (b : Budget) (s : AgentState) : AgentState :=
  mkState (st_user_request s) (st_constraints s) (st_trip_options s)
    (st_selected_destination s) (st_itinerary s) (Some b)
    (st_checklist s) (st_final_plan s) (st_history s).

Definition set_checklist (c : list (list (string + Z))) (s : AgentState)
    : AgentState :=
  mkState (st_user_request s) (st_constraints s) (st_trip_options s)
    (st_selected_destination s) (st_itinerary s) (st_budget s)
    (Some c) (st_final_plan s) (st_history s).

Definition set_final_plan (p : list piece) (s : AgentState) : AgentState :=
  mkState (st_user_request s) (st_constraints s) (st_trip_options s)
    (st_selected_destination s) (st_itinerary s) (st_budget s)
    (st_checklist s) (Some p) (st_history s).

Definition set_history (h : list HistoryEntry) (s : AgentState) : AgentState :=
  mkState (st_user_request s) (st_constraints s) (st_trip_options s)
    (st_selected_destination s) (st_itinerary s) (st_budget s)
    (st_checklist s) (st_final_plan s) h.

(** The trace, latest entry first, after the days of the itinerary were
    rewritten in place: the preview of the latest [build_itinerary] entry
    holds the same day objects, as many as it held. *)
Fixpoint share_preview_rev (days : list Day) (h : list HistoryEntry)
    : list HistoryEntry :=
  match h with
  | [] => []
  | H_build_itinerary preview :: older =>
      H_build_itinerary (firstn (List.length preview) days) :: older
  | e :: older => e :: share_preview_rev days older
  end.

Definition share_preview (itinerary : Itinerary) (h : list HistoryEntry)
    : list HistoryEntry :=
  rev (share_preview_rev (plan itinerary) (rev h)).

(* ------------------------------------------------------------------ *)
(** ** [agent/graph.py] *)

Definition _push (state : AgentState) (entry : HistoryEntry) : AgentState :=
  mkState (st_user_request state) (st_constraints state) (st_trip_options state)
    (st_selected_destination state) (st_itinerary state) (st_budget state)
    (st_checklist state) (st_final_plan state) (st_history state ++ [entry]).

(** [for x in candidates: if x in text: ...; break]. *)
Definition first_contained (candidates : list string) (text : string)
    : option string :=
  find (fun x => contains x text) candidates.

Definition possible : list string :=
  ["food"; "museums"; "nature"; "walk"; "history"; "shopping"; "architecture";
   "coastal"; "scenic"; "art"; "nightlife"; "markets"; "roadtrip"]%string.

Definition months : list string :=
  ["january"; "february"; "march"; "april"; "may"; "june"; "july"; "august";
   "september"; "october"; "november"; "december"]%string.

(** [(state.get("user_request") or "").strip()]: an absent request and an
    empty one both give the empty text. *)
Definition request_text (state : AgentState) : string :=
  strip (match st_user_request state with
         | Some s => s
         | None => EmptyString
         end).

(** The [constraints] dictionary that [parse_request] builds from the text
    of the request. *)
Definition parse_constraints (text : string) : Constraints :=
  let low := lower text in
  let days :=
    match re_search re_days low with
    | Some m => _safe_int (or_else (m_group m 1) (m_group m 2)) 5
    | None => 5
    end in
  let budget :=
    match re_search re_budget low with
    | Some m => _safe_int (or_else (m_group m 1) (m_group m 2)) 2000
    | None => 2000
    end in
  let travelers :=
    match re_search re_travelers low with
    | Some m => _safe_int (m_group m 1) 2
    | None => 2
    end in
  let region := first_contained ["europe"; "asia"; "americas"]%string low in
  let pace :=
    match first_contained ["slow"; "medium"; "fast"]%string low with
    | Some p => p
    | None => "medium"%string
    end in
  let found := filter (fun k => contains k low) possible in
  let interests :=
    match found with
    | _ :: _ => firstn 3 found
    | [] => ["food"; "museums"]%string
    end in
  let month_hint := option_map title (first_contained months low) in
  mkConstraints "Boston" days travelers budget region pace interests
    month_hint (float 450).

Definition parse_request (state : AgentState) : result AgentState :=
  let text := request_text state in
  let constraints := parse_constraints text in
  Ok (_push (set_constraints constraints state) (H_parse_request constraints)).

(** The rough total of [choose_destination]: [estimate_budget] without
    activities. *)
Definition rough_total (c : Constraints) (opt : Concept) : Q :=
  b_total_est (estimate_budget (c_destination opt) (days c) (travelers c)
                 (flight_est_per_person c)).

Section Catalog.
(** The rows of [data/destinations.csv] and [data/attractions.csv]. *)
Variable DEST_CSV : list Destination.
Variable ATTR_CSV : list Attraction.

Definition make_options (state : AgentState) : result AgentState :=
  let* c := subscript "constraints" (st_constraints state) in
  let candidates := search_destinations DEST_CSV (region c) (interests c) in
  let options := propose_trip_concepts c candidates in
  Ok (_push (set_trip_options options state) (H_propose_options options)).

(** One turn of the loop of [choose_destination] on [(best, best_total)]. *)
Definition choose_step (c : Constraints)
    (acc : option Destination * xfloat) (opt : Concept)
    : option Destination * xfloat :=
  let '(best, best_total) := acc in
  let dest := c_destination opt in
  let total := rough_total c opt in
  if lt_xfloat total best_total then (Some dest, Fin total) else (best, best_total).

Definition choose_destination (state : AgentState) : result AgentState :=
  let* c := subscript "constraints" (st_constraints state) in
  let options := match st_trip_options state with Some o => o | None => [] end in
  let '(best, best_total) := fold_left (choose_step c) options (None, Inf) in
  Ok (_push (set_selected_destination best state)
            (H_choose_destination best best_total)).

Definition build_plan (state : AgentState) : result AgentState :=
  let* c := subscript "constraints" (st_constraints state) in
  let* dest := subscript "selected_destination" (st_selected_destination state) in
  let* dest := not_none dest in
  let itinerary := build_itinerary ATTR_CSV (d_city dest) (days c) (interests c) (pace c) in
  Ok (_push (set_itinerary itinerary state)
            (H_build_itinerary (firstn 1 (plan itinerary)))).

Definition compute_budget (state : AgentState) : result AgentState :=
  let* c := subscript "constraints" (st_constraints state) in
  let* dest := subscript "selected_destination" (st_selected_destination state) in
  let* dest := not_none dest in
  let base := estimate_budget dest (days c) (travelers c) (flight_est_per_person c) in
  let* itinerary := subscript "itinerary" (st_itinerary state) in
  let act := estimate_activity_cost itinerary in
  let total := (b_total_est base + act)%Q in
  let bud :=
    mkBudget (b_lodging base) (b_food base) (b_local_transport base)
      (b_flights_est base) (b_total_est base) act (round2 total)
      (Qle_bool total (float (budget c))) in
  Ok (_push (set_budget bud state) (H_estimate_budget bud)).

Definition validate_and_adjust (state : AgentState) : result AgentState :=
  let* c := subscript "constraints" (st_constraints state) in
  let* bud := subscript "budget" (st_budget state) in
  if within_budget bud
  then Ok (_push state H_validate_adjust_no_change)
  else
    let over := (grand_total_est bud - float (budget c))%Q in
    let max_paid :=
      if negb (Qle_bool over 500) then 1
      else if negb (Qle_bool over 250) then 2
      else 3 in
    let* itinerary := subscript "itinerary" (st_itinerary state) in
    let itinerary := adjust_itinerary_for_budget itinerary max_paid in
    let state := set_history (share_preview itinerary (st_history state)) state in
    let state := set_itinerary itinerary state in
    let act := estimate_activity_cost itinerary in
    let grand := (total_est bud + act)%Q in
    let new_budget :=
      mkBudget (lodging bud) (food bud) (local_transport bud)
        (flights_est bud) (total_est bud) act (round2 grand)
        (Qle_bool grand (float (budget c))) in
    Ok (_push (set_budget new_budget state)
              (H_validate_adjust_reduced max_paid new_budget)).

(** The lines of one day in the final plan. *)
Definition day_lines (d : Day) : list (list piece) :=
  [Text "**Day "; IntV (day d); Text "**"]
  :: match items d with
     | [] => [[Text "- Free exploration / rest day"]]
     | its =>
         map (fun it =>
                [Text "- "; Text (a_name it); Text " ("; Text (a_tag it);
                 Text ", ~"; FloatV (typical_hours it); Text "h, est $";
                 FloatV (cost_est it); Text ")"])
             its
     end
  ++ [[Text ""]].

Definition finalize (state : AgentState) : result AgentState :=
  let* c := subscript "constraints" (st_constraints state) in
  let* dest := subscript "selected_destination" (st_selected_destination state) in
  let* bud := subscript "budget" (st_budget state) in
  let* itinerary := subscript "itinerary" (st_itinerary state) in
  let* dest := not_none dest in
  let checklist := build_checklist c dest in
  let state := set_checklist checklist state in
  let lines := flat_map day_lines (plan itinerary) in
  let interest_text :=
    match interests c with
    | [] => "general"%string
    | l => join ", " l
    end in
  let region_text := if truthy (region c)
                     then match region c with Some r => r | None => "any"%string end
                     else "any"%string in
  let final_plan : list piece :=
    ([Text "## Vacation Plan"; Text "**Destination:** "; Text (d_city dest);
     Text ", "; Text (d_country dest);
     Text "**Region preference:** "; Text region_text;
     Text "**Length:** "; IntV (days c); Text " days | **Travelers:** ";
     IntV (travelers c);
     Text "**Pace:** "; Text (pace c); Text " | **Interests:** ";
     Text interest_text;
     Text "### Budget (estimates)";
     Text "- Flights: $"; FloatV (flights_est bud);
     Text "- Lodging: $"; FloatV (lodging bud);
     Text "- Food: $"; FloatV (food bud);
     Text "- Local transport: $"; FloatV (local_transport bud);
     Text "- Activities: $"; FloatV (activities_est bud);
     Text "- **Grand total:** $"; FloatV (grand_total_est bud);
     Text " (Budget: $"; IntV (budget c); Text ")";
     Text "- **Within budget:** "; BoolV (within_budget bud);
     Text "### Day-by-day itinerary"]
    ++ List.concat lines
    ++ [Text "### Booking & prep checklist"]
    ++ flat_map (fun x => Text "- "
                            :: map (fun p => match p with
                                             | inl t => Text t
                                             | inr z => IntV z
                                             end) x)
                checklist)%list in
  Ok (_push (set_final_plan final_plan state) (H_finalize final_plan)).

(** The nodes of [build_graph], in the order of its edges from the entry
    point to [END]. *)
Definition build_graph : list (string * (AgentState -> result AgentState)) :=
  [ ("parse_request", parse_request);
    ("propose_options", make_options);
    ("choose_destination", choose_destination);
    ("build_itinerary", build_plan);
    ("estimate_budget", compute_budget);
    ("validate_adjust", validate_and_adjust);
    ("finalize", finalize) ]%string.

(** How a run ends: the final state, or the node that raised, the
    exception, and the state that node was entered with. *)
Inductive outcome : Type :=
| Finished (state : AgentState)
| Aborted (node : string) (e : error) (state : AgentState).

(** [graph.invoke]: the nodes run in order; an exception ends the run. *)
Fixpoint invoke_nodes (g : list (string * (AgentState -> result AgentState)))
    (state : AgentState) : outcome :=
  match g with
  | [] => Finished state
  | (name, f) :: g' =>
      match f state with
      | Ok state' => invoke_nodes g' state'
      | Raise e => Aborted name e state
      end
  end.

Definition initial_state (user_request : string) : AgentState :=
  mkState (Some user_request) None None None None None None None [].

(** [build_graph().invoke({"user_request": user_request})]. *)
Definition invoke (user_request : string) : outcome :=
  invoke_nodes build_graph (initial_state user_request).
End Catalog.

(* ------------------------------------------------------------------ *)
(** ** Vocabulary of the properties *)

(** A free item: [cost_est <= 0]; a paid item: [cost_est > 0]. *)
Definition is_free (it : Attraction) : bool := Qle_bool (cost_est it) 0.
Definition is_paid (it : Attraction) : bool := negb (is_free it).

(** All the items of a plan, day after day. *)
Definition all_items (p : list Day) : list Attraction := flat_map items p.

(** [subseq l1 l2]: [l1] is [l2] with some elements removed, the others in
    their order. *)
Inductive subseq {A : Type} : list A -> list A -> Prop :=
| subseq_nil : subseq [] []
| subseq_drop (x : A) (l1 l2 : list A) : subseq l1 l2 -> subseq l1 (x :: l2)
| subseq_keep (x : A) (l1 l2 : list A) : subseq l1 l2 -> subseq (x :: l1) (x :: l2).

(** What the scan of [choose_destination] holds after a prefix [l] of the
    options: nothing before the first option, and afterwards the first
    option of [l] among those of least rough total. *)
Definition scan_invariant (c : Constraints) (l : list Concept)
    (acc : option Destination * xfloat) : Prop :=
  match l with
  | [] => acc = (None, Inf)
  | _ :: _ =>
      exists (i : nat) (opt : Concept),
        nth_error l i = Some opt
        /\ acc = (Some (c_destination opt), Fin (rough_total c opt))
        /\ (forall j o, nth_error l j = Some o ->
                        (rough_total c opt <= rough_total c o)%Q)
        /\ (forall j o, (j < i)%nat -> nth_error l j = Some o ->
                        (rough_total c opt < rough_total c o)%Q)
  end.

(** A text of one or two decimal digits. *)
Definition digits12 (t : list ascii) : Prop :=
  (List.length t = 1%nat \/ List.length t = 2%nat) /\ forallb is_digit t = true.

(** Group [g], when captured, holds a text with property [P]. *)
Definition group_has (g : nat) (P : list ascii -> Prop) (caps : captures) : Prop :=
  forall t, group caps g = Some t -> P t.

(** Every [Group g] of [r] encloses a pattern that only consumes texts with
    property [P]. *)
Fixpoint group_pattern_has (g : nat) (P : list ascii -> Prop) (r : regex) : Prop :=
  match r with
  | Cat r1 r2 | Alt r1 r2 => group_pattern_has g P r1 /\ group_pattern_has g P r2
  | Rep r1 _ _ => group_pattern_has g P r1
  | Group g' r1 =>
      (g' = g ->
       forall prev rest caps c rest' caps',
         In (c, rest', caps') (matches r1 prev rest caps) -> P c)
      /\ group_pattern_has g P r1
  | _ => True
  end.

(** A text of between [lo] and [hi] decimal digits. *)
Definition digit_text (lo hi : nat) (t : list ascii) : Prop :=
  forallb is_digit t = true /\ (lo <= List.length t <= hi)%nat.

(** The rows that pass the region filter of [search_destinations]: all of
    them when the region is [None] or empty. *)
Definition region_matches (region : option string) (row : Destination) : bool :=
  match region with
  | Some (String c r) => String.eqb (lower (d_region row)) (lower (String c r))
  | _ => true
  end.

(** The rows of a city, as [build_itinerary] selects them. *)
Definition city_matches (city : string) (row : Attraction) : bool :=
  String.eqb (lower (a_city row)) (lower city).

(** The data frame of [build_itinerary] after its sort: the rows of the
    city, with the match column when interests are given, in the order in
    which they are dealt to the days. *)
Definition ranked_attractions (ATTR_CSV : list Attraction) (city : string)
    (interests : list string) : list Attraction :=
  let df := filter (city_matches city) ATTR_CSV in
  match interests with
  | _ :: _ =>
      sort_values attr_before_match_cost
        (map (fun row =>
                set_match (if existsb (fun i => contains (lower i) (lower (a_tag row)))
                                      interests
                           then 1 else 0) row) df)
  | [] => sort_values attr_before_cost df
  end.

(** The sum of a list of amounts. *)
Definition Qsum (l : list Q) : Q := fold_right Qplus 0%Q l.

(* ------------------------------------------------------------------ *)
(** ** Sample data *)

Definition sample_destination : Destination :=
  mkDestination "Prague" "Czechia" "Europe" "history,architecture, food"
    80 35 8 (Some 1).

Definition sample_attractions : list Attraction :=
  [ mkAttraction "Prague" "Museum" "museums" 2 12 (Some 1);
    mkAttraction "Prague" "Food tour" "food" 3 60 (Some 1);
    mkAttraction "Prague" "Bridge" "walk" 1 0 (Some 0);
    mkAttraction "Prague" "Castle" "history" 3 15 (Some 0);
    mkAttraction "Prague" "Concert" "art" 2 45 (Some 0) ].

(** Rows as the two CSV files hold them. *)
Definition sample_dest_rows : list Destination :=
  [ mkDestination "Lisbon" "Portugal" "Europe" "food, museums,coastal"
      90 40 10 None;
    mkDestination "Prague" "Czechia" "Europe" "history,architecture, food"
      80 35 8 None;
    mkDestination "Brno" "Czechia" "Europe" "history, food" 80 35 8 None ].

Definition sample_attr_rows : list Attraction :=
  [ mkAttraction "Prague" "Castle" "history" 3 15 None;
    mkAttraction "Prague" "Bridge" "walk" 1 0 None;
    mkAttraction "Prague" "Food tour" "food" 3 60 None;
    mkAttraction "Prague" "Museum" "museums" 2 12 None;
    mkAttraction "Prague" "Concert" "art" 2 45 None ].

Definition sample_constraints (budget : Z) : Constraints :=
  mkConstraints "Boston" 3 2 budget (Some "europe"%string) "medium"
    ["food"; "museums"]%string None (float 450).

Definition sample_itinerary : Itinerary :=
  mkItinerary "Prague" 3 "medium"
    [ mkDay 1 (firstn 3 sample_attractions);
      mkDay 2 (skipn 3 sample_attractions);
      mkDay 3 [] ].

(** A state as the BuildItinerary stage leaves it. *)
Definition sample_state (budget : Z) : AgentState :=
  mkState None (Some (sample_constraints budget)) None
    (Some (Some sample_destination)) (Some sample_itinerary) None None None [].

(** Three options: the second and the third have the same, lowest, rough
    total. *)
Definition sample_options : list Concept :=
  propose_trip_concepts (sample_constraints 1000)
    [ mkDestination "Lisbon" "Portugal" "Europe" "food, museums,coastal"
        90 40 10 (Some 2);
      sample_destination;
      mkDestination "Brno" "Czechia" "Europe" "history, food" 80 35 8 (Some 1) ].

(** A state as the ProposeOptions stage leaves it. *)
Definition sample_state_options : AgentState :=
  mkState None (Some (sample_constraints 1000)) (Some sample_options)
    None None None None None [].

(** A state as the ParseConstraints stage leaves it. *)
Definition sample_state_parsed : AgentState :=
  mkState None (Some (sample_constraints 1000)) None None None None None None [].

(** The breakdown of the sample itinerary: 1318 without activities, 132 of
    activities; over a budget of less than 1450. *)
Definition sample_budget : Budget :=
  mkBudget 160.00 210.00 48.00 900.00 1318.00 132.00 1450.00 false.

(** A state as the EstimateBudget stage leaves it, over budget. *)
Definition sample_state_over (budget : Z) : AgentState :=
  mkState None (Some (sample_constraints budget)) None
    (Some (Some sample_destination)) (Some sample_itinerary)
    (Some sample_budget) None None [H_estimate_budget sample_budget].

(* ================================================================== *)
(** * Properties *)

(* ------------------------------------------------------------------ *)
(** ** Rounding *)

Lemma round_half_even_comp (x y : Q) :
  (x == y)%Q -> round_half_even x = round_half_even y.
Proof.
  intros E. unfold round_half_even.
  rewrite (Qfloor_comp _ _ E).
  assert (E' : (x - inject_Z (Qfloor y) == y - inject_Z (Qfloor y))%Q)
    by (rewrite E; reflexivity).
  rewrite (Qcompare_comp _ _ E' _ _ (Qeq_refl (1 # 2))).
  reflexivity.
Qed.

Lemma round_half_even_Z (k : Z) : round_half_even (inject_Z k) = k.
Proof.
  unfold round_half_even. rewrite Qfloor_Z.
  destruct (Qcompare_spec (inject_Z k - inject_Z k) (1 # 2)) as [E|L|G].
  - exfalso. lra.
  - reflexivity.
  - exfalso. lra.
Qed.

(** The rounded value is within one half of the argument. *)
Lemma round_half_even_near (x : Q) :
  (inject_Z (round_half_even x) - (1 # 2) <= x
   /\ x <= inject_Z (round_half_even x) + (1 # 2))%Q.
Proof.
  unfold round_half_even.
  pose proof (Qfloor_le x) as Hlo. pose proof (Qlt_floor x) as Hhi.
  rewrite inject_Z_plus in Hhi. change (inject_Z 1) with 1%Q in Hhi.
  destruct (Qcompare_spec (x - inject_Z (Qfloor x)) (1 # 2)) as [E|L|G].
  - destruct (Z.even (Qfloor x));
      [|rewrite inject_Z_plus; change (inject_Z 1) with 1%Q]; split; lra.
  - split; lra.
  - rewrite inject_Z_plus. change (inject_Z 1) with 1%Q. split; lra.
Qed.

Lemma round_half_even_mono (x y : Q) :
  (x <= y)%Q -> round_half_even x <= round_half_even y.
Proof.
  intros Hxy.
  pose proof (Qfloor_resp_le _ _ Hxy) as Hf.
  destruct (Z.eq_dec (Qfloor x) (Qfloor y)) as [Ef|Nf].
  - unfold round_half_even. rewrite <- Ef.
    destruct (Qcompare_spec (x - inject_Z (Qfloor x)) (1 # 2)) as [E1|L1|G1];
      destruct (Qcompare_spec (y - inject_Z (Qfloor x)) (1 # 2)) as [E2|L2|G2];
      try destruct (Z.even (Qfloor x)); try lia; exfalso; lra.
  - assert (Hx : round_half_even x <= Qfloor x + 1).
    { unfold round_half_even.
      destruct (Qcompare (x - inject_Z (Qfloor x)) (1 # 2));
        try destruct (Z.even (Qfloor x)); lia. }
    assert (Hy : Qfloor y <= round_half_even y).
    { unfold round_half_even.
      destruct (Qcompare (y - inject_Z (Qfloor y)) (1 # 2));
        try destruct (Z.even (Qfloor y)); lia. }
    lia.
Qed.

Lemma round2_comp (x y : Q) : (x == y)%Q -> round2 x = round2 y.
Proof.
  intros E. unfold round2.
  rewrite (round_half_even_comp (x * 100) (y * 100)); [reflexivity|].
  rewrite E. reflexivity.
Qed.

Lemma round2_mono (x y : Q) : (x <= y)%Q -> (round2 x <= round2 y)%Q.
Proof.
  intros Hxy. unfold round2.
  assert (H : round_half_even (x * 100) <= round_half_even (y * 100))
    by (apply round_half_even_mono; lra).
  rewrite Zle_Qle in H.
  apply Qmult_le_compat_r; [exact H|]. discriminate.
Qed.

(** A number of hundredths rounds to itself. *)
Lemma round2_hundredths (k : Z) :
  (round2 (inject_Z k / 100) == inject_Z k / 100)%Q.
Proof.
  unfold round2.
  rewrite (round_half_even_comp (inject_Z k / 100 * 100) (inject_Z k)).
  - rewrite round_half_even_Z. reflexivity.
  - field.
Qed.

(** The sum of two rounded amounts needs no further rounding. *)
Lemma round2_add_rounded (a b : Q) :
  (round2 (round2 a + round2 b) == round2 a + round2 b)%Q.
Proof.
  assert (E : (round2 a + round2 b ==
               inject_Z (round_half_even (a * 100) + round_half_even (b * 100)) / 100)%Q).
  { unfold round2. rewrite inject_Z_plus. field. }
  rewrite (round2_comp _ _ E). rewrite round2_hundredths. symmetry. exact E.
Qed.

Lemma round2_near (x : Q) :
  (round2 x - (1 # 200) <= x /\ x <= round2 x + (1 # 200))%Q.
Proof.
  destruct (round_half_even_near (x * 100)) as [Hlo Hhi].
  unfold round2.
  set (r := inject_Z (round_half_even (x * 100))) in *.
  split.
  - apply Qmult_le_r with (z := 100%Q); [reflexivity|].
    assert (E : ((r / 100 - (1 # 200)) * 100 == r - (1 # 2))%Q) by field.
    rewrite E. exact Hlo.
  - apply Qmult_le_r with (z := 100%Q); [reflexivity|].
    assert (E : ((r / 100 + (1 # 200)) * 100 == r + (1 # 2))%Q) by field.
    rewrite E. exact Hhi.
Qed.

Lemma round2_zero : (round2 0 == 0)%Q.
Proof. reflexivity. Qed.

(* ------------------------------------------------------------------ *)
(** ** The budget stages, step by step *)

(** The breakdown that [compute_budget] stores. *)
Lemma compute_budget_ok (s : AgentState) (c : Constraints) (d : Destination)
    (it : Itinerary) :
  st_constraints s = Some c ->
  st_selected_destination s = Some (Some d) ->
  st_itinerary s = Some it ->
  let base := estimate_budget d (days c) (travelers c) (flight_est_per_person c) in
  let act := estimate_activity_cost it in
  let b := mkBudget (b_lodging base) (b_food base) (b_local_transport base)
             (b_flights_est base) (b_total_est base) act
             (round2 (b_total_est base + act))
             (Qle_bool (b_total_est base + act) (float (budget c))) in
  compute_budget s = Ok (_push (set_budget b s) (H_estimate_budget b)).
Proof.
  intros Hc Hd Hi. unfold compute_budget. rewrite Hc, Hd, Hi. reflexivity.
Qed.

(** The over-budget branch of [validate_and_adjust]. *)
Lemma validate_and_adjust_over (s : AgentState) (c : Constraints) (b : Budget)
    (it : Itinerary) :
  st_constraints s = Some c ->
  st_budget s = Some b ->
  st_itinerary s = Some it ->
  within_budget b = false ->
  let over := (grand_total_est b - float (budget c))%Q in
  let max_paid := if negb (Qle_bool over 500) then 1
                  else if negb (Qle_bool over 250) then 2 else 3 in
  let it' := adjust_itinerary_for_budget it max_paid in
  let act := estimate_activity_cost it' in
  let nb := mkBudget (lodging b) (food b) (local_transport b) (flights_est b)
              (total_est b) act (round2 (total_est b + act))
              (Qle_bool (total_est b + act) (float (budget c))) in
  validate_and_adjust s =
  Ok (_push (set_budget nb
               (set_itinerary it'
                  (set_history (share_preview it' (st_history s)) s)))
            (H_validate_adjust_reduced max_paid nb)).
Proof.
  intros Hc Hb Hi Hw. unfold validate_and_adjust.
  rewrite Hc, Hb. cbn [bind subscript]. rewrite Hw, Hi. reflexivity.
Qed.

(** Sharing the days rewrites previews only: the trace keeps its entries'
    nodes. *)
Lemma share_preview_rev_nodes (days : list Day) (h : list HistoryEntry) :
  map node (share_preview_rev days h) = map node h.
Proof.
  induction h as [|e h IH]; [reflexivity|].
  destruct e; cbn [share_preview_rev map node]; rewrite ?IH; reflexivity.
Qed.

Lemma share_preview_nodes (it : Itinerary) (h : list HistoryEntry) :
  map node (share_preview it h) = map node h.
Proof.
  unfold share_preview.
  rewrite map_rev, share_preview_rev_nodes, <- map_rev, rev_involutive.
  reflexivity.
Qed.

(** The three tiers of the cap. *)
Lemma max_paid_tiers (over : Q) :
  let cap := if negb (Qle_bool over 500) then 1
             else if negb (Qle_bool over 250) then 2 else 3 in
  ((500 < over)%Q -> cap = 1)
  /\ ((250 < over)%Q -> (over <= 500)%Q -> cap = 2)
  /\ ((over <= 250)%Q -> cap = 3).
Proof.
  cbv zeta.
  destruct (Qle_bool over 500) eqn:H500; destruct (Qle_bool over 250) eqn:H250;
    cbn [negb];
    try (apply Qle_bool_iff in H500); try (apply Qle_bool_iff in H250);
    repeat split; intros; try reflexivity; exfalso;
    try (assert (~ (over <= 250)%Q)
           by (rewrite <- Qle_bool_iff, H250; discriminate));
    try (assert (~ (over <= 500)%Q)
           by (rewrite <- Qle_bool_iff, H500; discriminate));
    lra.
Qed.

(** The within-budget branch of [validate_and_adjust]. *)
Lemma validate_and_adjust_within (s : AgentState) (c : Constraints) (b : Budget) :
  st_constraints s = Some c ->
  st_budget s = Some b ->
  within_budget b = true ->
  validate_and_adjust s = Ok (_push s H_validate_adjust_no_change).
Proof.
  intros Hc Hb Hw. unfold validate_and_adjust.
  rewrite Hc, Hb. cbn [bind subscript]. rewrite Hw. reflexivity.
Qed.

(** Comparing a sum of two rounded amounts with the budget gives the same
    answer before and after the final rounding. *)
Lemma flag_of_rounded_sum (a b : Q) (limit : Z) :
  Qle_bool (round2 a + round2 b) (float limit)
  = Qle_bool (round2 (round2 a + round2 b)) (float limit).
Proof.
  apply Qleb_comp; [|reflexivity]. symmetry. apply round2_add_rounded.
Qed.

Lemma flag_of_estimates (d : Destination) (n t : Z) (f : Q) (it : Itinerary)
    (limit : Z) :
  Qle_bool (b_total_est (estimate_budget d n t f) + estimate_activity_cost it)
           (float limit)
  = Qle_bool (round2 (b_total_est (estimate_budget d n t f)
                      + estimate_activity_cost it))
             (float limit).
Proof. exact (flag_of_rounded_sum _ _ limit). Qed.

(* ------------------------------------------------------------------ *)
(** ** C6: the formulas of [estimate_budget] *)

(** C6. [estimate_budget] returns lodging = nightly rate x (days - 1),
    food = daily food x days x travelers, local transport = daily transport
    x days x travelers, flights = flight estimate x travelers, and the total
    of the four, each rounded to two decimals; for a single day the lodging
    is zero. *)
Theorem estimate_budget_formulas (d : Destination) (days travelers : Z) (f : Q) :
  let b := estimate_budget d days travelers f in
  let lodging := (avg_lodging_per_night d * inject_Z (days - 1))%Q in
  let food := (avg_food_per_day d * inject_Z days * inject_Z travelers)%Q in
  let local := (avg_local_transport_per_day d * inject_Z days * inject_Z travelers)%Q in
  let flights := (f * inject_Z travelers)%Q in
  b_lodging b = round2 lodging
  /\ b_food b = round2 food
  /\ b_local_transport b = round2 local
  /\ b_flights_est b = round2 flights
  /\ b_total_est b = round2 (lodging + food + local + flights)
  /\ (b_lodging (estimate_budget d 1 travelers f) == 0)%Q.
Proof.
  cbv zeta. repeat split.
  unfold estimate_budget, b_lodging, float.
  rewrite (round2_comp _ 0); [reflexivity|].
  change (inject_Z (1 - 1)) with 0%Q. ring.
Qed.

(* ------------------------------------------------------------------ *)
(** ** C1: the within-budget flag *)

(** C1. In a run that has a destination and an itinerary, the breakdown
    stored by the EstimateBudget stage, and the breakdown in the state after
    the ValidateAdjust stage (recomputed or not), both have [within_budget]
    equal to the comparison of [grand_total_est] with the budget. *)
Theorem within_budget_flag (s : AgentState) (c : Constraints) (d : Destination)
    (it : Itinerary) :
  st_constraints s = Some c ->
  st_selected_destination s = Some (Some d) ->
  st_itinerary s = Some it ->
  exists s2 b2,
    compute_budget s = Ok s2
    /\ st_budget s2 = Some b2
    /\ within_budget b2 = Qle_bool (grand_total_est b2) (float (budget c))
    /\ exists s3 b3,
         validate_and_adjust s2 = Ok s3
         /\ st_budget s3 = Some b3
         /\ within_budget b3 = Qle_bool (grand_total_est b3) (float (budget c)).
Proof.
  intros Hc Hd Hi.
  pose proof (compute_budget_ok s c d it Hc Hd Hi) as Hcb. cbv zeta in Hcb.
  set (b2 := mkBudget _ _ _ _ _ _ _ _) in Hcb.
  set (s2 := _push (set_budget b2 s) (H_estimate_budget b2)) in Hcb.
  assert (Hflag2 : within_budget b2
                   = Qle_bool (grand_total_est b2) (float (budget c)))
    by apply flag_of_estimates.
  exists s2, b2. split; [exact Hcb|]. split; [reflexivity|].
  split; [exact Hflag2|].
  destruct (within_budget b2) eqn:Hw.
  - exists (_push s2 H_validate_adjust_no_change), b2.
    split; [apply (validate_and_adjust_within s2 c b2); auto|].
    split; [reflexivity|].
    rewrite Hw. exact Hflag2.
  - pose proof (validate_and_adjust_over s2 c b2 it Hc eq_refl Hi Hw) as Hv.
    cbv zeta in Hv.
    eexists. eexists. split; [exact Hv|]. split; [reflexivity|].
    apply flag_of_estimates.
Qed.

Lemma within_budget_flag_witness :
  exists s2 b2,
    compute_budget (sample_state 1000) = Ok s2
    /\ st_budget s2 = Some b2
    /\ within_budget b2
       = Qle_bool (grand_total_est b2) (float (budget (sample_constraints 1000)))
    /\ exists s3 b3,
         validate_and_adjust s2 = Ok s3
         /\ st_budget s3 = Some b3
         /\ within_budget b3
            = Qle_bool (grand_total_est b3) (float (budget (sample_constraints 1000))).
Proof.
  apply (within_budget_flag (sample_state 1000) (sample_constraints 1000)
           sample_destination sample_itinerary); reflexivity.
Defined.

(* ------------------------------------------------------------------ *)
(** ** C4: the grand total and its components *)

(** Four amounts rounded one by one differ from their rounded sum by at most
    two hundredths. *)
Lemma rounded_sum_gap (x1 x2 x3 x4 : Q) :
  (Qabs (round2 (x1 + x2 + x3 + x4)
         - (round2 x1 + round2 x2 + round2 x3 + round2 x4)) <= 2 # 100)%Q.
Proof.
  unfold round2.
  set (K := round_half_even ((x1 + x2 + x3 + x4) * 100)).
  set (k1 := round_half_even (x1 * 100)). set (k2 := round_half_even (x2 * 100)).
  set (k3 := round_half_even (x3 * 100)). set (k4 := round_half_even (x4 * 100)).
  destruct (round_half_even_near ((x1 + x2 + x3 + x4) * 100)) as [HK1 HK2].
  destruct (round_half_even_near (x1 * 100)) as [H11 H12].
  destruct (round_half_even_near (x2 * 100)) as [H21 H22].
  destruct (round_half_even_near (x3 * 100)) as [H31 H32].
  destruct (round_half_even_near (x4 * 100)) as [H41 H42].
  fold K in HK1, HK2. fold k1 in H11, H12. fold k2 in H21, H22.
  fold k3 in H31, H32. fold k4 in H41, H42.
  assert (Hm : -2 <= K - (k1 + k2 + k3 + k4) <= 2).
  { split.
    - assert (H : (inject_Z (-3) < inject_Z (K - (k1 + k2 + k3 + k4)))%Q).
      { unfold Z.sub. rewrite !inject_Z_plus, inject_Z_opp, !inject_Z_plus.
        change (inject_Z (-3)) with (-3)%Q. lra. }
      rewrite <- Zlt_Qlt in H. lia.
    - assert (H : (inject_Z (K - (k1 + k2 + k3 + k4)) < inject_Z 3)%Q).
      { unfold Z.sub. rewrite !inject_Z_plus, inject_Z_opp, !inject_Z_plus.
        change (inject_Z 3) with 3%Q. lra. }
      rewrite <- Zlt_Qlt in H. lia. }
  assert (E : (inject_Z K / 100
               - (inject_Z k1 / 100 + inject_Z k2 / 100 + inject_Z k3 / 100
                  + inject_Z k4 / 100)
               == inject_Z (K - (k1 + k2 + k3 + k4)) / 100)%Q).
  { unfold Z.sub. rewrite !inject_Z_plus, inject_Z_opp, !inject_Z_plus. field. }
  rewrite E. apply Qabs_Qle_condition.
  destruct Hm as [Hm1 Hm2]. rewrite Zle_Qle in Hm1, Hm2.
  change (inject_Z (-2)) with (-2)%Q in Hm1. change (inject_Z 2) with 2%Q in Hm2.
  set (m := inject_Z (K - (k1 + k2 + k3 + k4))) in *.
  split.
  - apply Qmult_le_r with (z := 100%Q); [reflexivity|].
    assert (E1 : (m / 100 * 100 == m)%Q) by field. rewrite E1.
    assert (E2 : (- (2 # 100) * 100 == -2)%Q) by reflexivity. rewrite E2.
    exact Hm1.
  - apply Qmult_le_r with (z := 100%Q); [reflexivity|].
    assert (E1 : (m / 100 * 100 == m)%Q) by field. rewrite E1.
    assert (E2 : ((2 # 100) * 100 == 2)%Q) by reflexivity. rewrite E2.
    exact Hm2.
Qed.

(** The components of [estimate_budget] against its total. *)
Lemma estimate_budget_gap (d : Destination) (n t : Z) (f : Q) :
  let b := estimate_budget d n t f in
  (Qabs (b_total_est b
         - (b_lodging b + b_food b + b_local_transport b + b_flights_est b))
   <= 2 # 100)%Q.
Proof. cbv zeta. unfold estimate_budget. cbn. apply rounded_sum_gap. Qed.

(** A breakdown whose total and activities are rounded amounts, and whose
    grand total is the rounding of their sum. *)
Lemma grand_total_gap (l fo lt fl tot act : Q) :
  (Qabs (tot - (l + fo + lt + fl)) <= 2 # 100)%Q ->
  (round2 (tot + act) == tot + act)%Q ->
  (Qabs (round2 (tot + act) - (l + fo + lt + fl + act)) <= 2 # 100)%Q.
Proof.
  intros Hgap Hex. rewrite Hex.
  assert (E : (tot + act - (l + fo + lt + fl + act) == tot - (l + fo + lt + fl))%Q)
    by ring.
  rewrite E. exact Hgap.
Qed.

(** C4. In a run that has a destination and an itinerary, the breakdown of
    the EstimateBudget stage and the breakdown after the ValidateAdjust
    stage both satisfy: the four base components are the roundings of the
    four formula values, the grand total is the rounding of the sum of those
    values plus [activities_est], it equals [total_est + activities_est],
    and it is within two hundredths (the slack left by rounding the
    components one by one) of lodging + food + local transport + flights +
    activities. *)
Theorem grand_total_is_sum (s : AgentState) (c : Constraints) (d : Destination)
    (it : Itinerary) :
  st_constraints s = Some c ->
  st_selected_destination s = Some (Some d) ->
  st_itinerary s = Some it ->
  let l := (avg_lodging_per_night d * inject_Z (days c - 1))%Q in
  let f := (avg_food_per_day d * inject_Z (days c) * inject_Z (travelers c))%Q in
  let t := (avg_local_transport_per_day d * inject_Z (days c)
            * inject_Z (travelers c))%Q in
  let fl := (flight_est_per_person c * inject_Z (travelers c))%Q in
  let sums_up (b : Budget) :=
    lodging b = round2 l /\ food b = round2 f
    /\ local_transport b = round2 t /\ flights_est b = round2 fl
    /\ (grand_total_est b == round2 (l + f + t + fl) + activities_est b)%Q
    /\ (grand_total_est b == total_est b + activities_est b)%Q
    /\ (Qabs (grand_total_est b
              - (lodging b + food b + local_transport b + flights_est b
                 + activities_est b)) <= 2 # 100)%Q in
  exists s2 b2,
    compute_budget s = Ok s2 /\ st_budget s2 = Some b2 /\ sums_up b2
    /\ exists s3 b3,
         validate_and_adjust s2 = Ok s3 /\ st_budget s3 = Some b3 /\ sums_up b3.
Proof.
  intros Hc Hd Hi l f t fl sums_up.
  pose proof (compute_budget_ok s c d it Hc Hd Hi) as Hcb. cbv zeta in Hcb.
  set (base := estimate_budget d (days c) (travelers c) (flight_est_per_person c)) in Hcb.
  set (b2 := mkBudget _ _ _ _ _ _ _ _) in Hcb.
  set (s2 := _push (set_budget b2 s) (H_estimate_budget b2)) in Hcb.
  assert (Hex : forall i, (round2 (b_total_est base + estimate_activity_cost i)
                           == b_total_est base + estimate_activity_cost i)%Q)
    by (intros i; exact (round2_add_rounded _ _)).
  assert (Hsum : forall i,
             sums_up (mkBudget (b_lodging base) (b_food base)
                        (b_local_transport base) (b_flights_est base)
                        (b_total_est base) (estimate_activity_cost i)
                        (round2 (b_total_est base + estimate_activity_cost i))
                        (Qle_bool (b_total_est base + estimate_activity_cost i)
                                  (float (budget c))))).
  { intros i.
    repeat split; cbn [grand_total_est total_est activities_est lodging food
                       local_transport flights_est].
    - apply Hex.
    - apply Hex.
    - apply grand_total_gap; [apply estimate_budget_gap | apply Hex]. }
  exists s2, b2. split; [exact Hcb|]. split; [reflexivity|].
  split; [exact (Hsum it)|].
  destruct (within_budget b2) eqn:Hw.
  - exists (_push s2 H_validate_adjust_no_change), b2.
    split; [apply (validate_and_adjust_within s2 c b2); auto|].
    split; [reflexivity|]. exact (Hsum it).
  - pose proof (validate_and_adjust_over s2 c b2 it Hc eq_refl Hi Hw) as Hv.
    cbv zeta in Hv.
    eexists. eexists. split; [exact Hv|]. split; [reflexivity|].
    apply Hsum.
Qed.

Lemma grand_total_is_sum_witness :
  let c := sample_constraints 1000 in
  let d := sample_destination in
  let l := (avg_lodging_per_night d * inject_Z (days c - 1))%Q in
  let f := (avg_food_per_day d * inject_Z (days c) * inject_Z (travelers c))%Q in
  let t := (avg_local_transport_per_day d * inject_Z (days c)
            * inject_Z (travelers c))%Q in
  let fl := (flight_est_per_person c * inject_Z (travelers c))%Q in
  let sums_up (b : Budget) :=
    lodging b = round2 l /\ food b = round2 f
    /\ local_transport b = round2 t /\ flights_est b = round2 fl
    /\ (grand_total_est b == round2 (l + f + t + fl) + activities_est b)%Q
    /\ (grand_total_est b == total_est b + activities_est b)%Q
    /\ (Qabs (grand_total_est b
              - (lodging b + food b + local_transport b + flights_est b
                 + activities_est b)) <= 2 # 100)%Q in
  exists s2 b2,
    compute_budget (sample_state 1000) = Ok s2 /\ st_budget s2 = Some b2
    /\ sums_up b2
    /\ exists s3 b3,
         validate_and_adjust s2 = Ok s3 /\ st_budget s3 = Some b3 /\ sums_up b3.
Proof.
  apply (grand_total_is_sum (sample_state 1000) (sample_constraints 1000)
           sample_destination sample_itinerary); reflexivity.
Defined.

(** The slack of C4 is used: with rates of 0.004, 0.002 and 0.002 each of
    lodging, food and transport rounds to 0 while the total rounds up. *)
Remark grand_total_slack_is_needed :
  let d := mkDestination "X" "Y" "Z" "" (4 # 1000) (2 # 1000) (2 # 1000) None in
  let b := estimate_budget d 2 1 (4 # 1000) in
  (b_lodging b + b_food b + b_local_transport b + b_flights_est b == 0)%Q
  /\ (b_total_est b == 2 # 100)%Q.
Proof. split; reflexivity. Qed.

(* ------------------------------------------------------------------ *)
(** ** C7: the cap on paid activities *)

(** C7. When the ValidateAdjust stage finds the breakdown over budget, it
    trims the itinerary with a cap fixed by the overage
    [grand_total_est - budget] alone: 1 above 500, 2 above 250 and up to
    500, 3 otherwise; the cap is recorded in the entry that the stage
    appends to the trace, whose earlier entries keep their nodes. *)
Theorem cap_from_overage (s : AgentState) (c : Constraints) (b : Budget)
    (it : Itinerary) :
  st_constraints s = Some c ->
  st_budget s = Some b ->
  st_itinerary s = Some it ->
  within_budget b = false ->
  let over := (grand_total_est b - inject_Z (budget c))%Q in
  exists s' cap nb,
    validate_and_adjust s = Ok s'
    /\ st_itinerary s' = Some (adjust_itinerary_for_budget it cap)
    /\ (exists h, st_history s' = h ++ [H_validate_adjust_reduced cap nb]
                  /\ map node h = map node (st_history s))
    /\ ((500 < over)%Q -> cap = 1)
    /\ ((250 < over)%Q -> (over <= 500)%Q -> cap = 2)
    /\ ((over <= 250)%Q -> cap = 3).
Proof.
  intros Hc Hb Hi Hw over.
  pose proof (validate_and_adjust_over s c b it Hc Hb Hi Hw) as Hv.
  cbv zeta in Hv. fold over in Hv. unfold float in Hv. fold over in Hv.
  set (cap := if negb (Qle_bool over 500) then 1
              else if negb (Qle_bool over 250) then 2 else 3) in *.
  eexists. exists cap. eexists. split; [exact Hv|].
  split; [reflexivity|]. split.
  - eexists. split; [reflexivity|]. apply share_preview_nodes.
  - exact (max_paid_tiers over).
Qed.

Lemma cap_from_overage_witness :
  let over := (grand_total_est sample_budget - inject_Z 1000)%Q in
  exists s' cap nb,
    validate_and_adjust (sample_state_over 1000) = Ok s'
    /\ st_itinerary s' = Some (adjust_itinerary_for_budget sample_itinerary cap)
    /\ (exists h, st_history s' = h ++ [H_validate_adjust_reduced cap nb]
                  /\ map node h = map node (st_history (sample_state_over 1000)))
    /\ ((500 < over)%Q -> cap = 1)
    /\ ((250 < over)%Q -> (over <= 500)%Q -> cap = 2)
    /\ ((over <= 250)%Q -> cap = 3).
Proof.
  apply (cap_from_overage (sample_state_over 1000) (sample_constraints 1000)
           sample_budget sample_itinerary); reflexivity.
Defined.

(** The three tiers at overages 600, 300 and 100. *)
Example cap_tiers_600_300_100 :
  let cap_of (budget : Z) :=
    match validate_and_adjust (sample_state_over budget) with
    | Ok s' => match last (st_history s') H_validate_adjust_no_change with
               | H_validate_adjust_reduced cap _ => Some cap
               | _ => None
               end
    | Raise _ => None
    end in
  cap_of 850 = Some 1 /\ cap_of 1150 = Some 2 /\ cap_of 1350 = Some 3.
Proof. repeat split; vm_compute; reflexivity. Qed.

(* ------------------------------------------------------------------ *)
(** ** C8: what the adjustment keeps *)

Lemma subseq_refl {A : Type} (l : list A) : subseq l l.
Proof. induction l; constructor; assumption. Qed.

(** The accumulator of [adjust_items] is a prefix of its result. *)
Lemma adjust_items_acc (N : Z) (its : list Attraction) :
  forall (k : Z) (acc : list Attraction),
    adjust_items N its k acc
    = (acc ++ fst (adjust_items N its k []), snd (adjust_items N its k [])).
Proof.
  induction its as [|it rest IH]; intros k acc; cbn [adjust_items].
  - rewrite app_nil_r. reflexivity.
  - destruct (Qle_bool (cost_est it) 0).
    + rewrite (IH k (acc ++ [it])), (IH k ([] ++ [it])). cbn [fst snd app].
      rewrite <- app_assoc. reflexivity.
    + destruct (k <? N).
      * rewrite (IH (k + 1) (acc ++ [it])), (IH (k + 1) ([] ++ [it])).
        cbn [fst snd app]. rewrite <- app_assoc. reflexivity.
      * apply IH.
Qed.

(** One day: what is kept is a subsequence that has all the free items, and
    its paid items are the first [N - k] paid items of the day. *)
Lemma adjust_items_spec (N : Z) (its : list Attraction) :
  forall k : Z,
    let kept := fst (adjust_items N its k []) in
    let k' := snd (adjust_items N its k []) in
    subseq kept its
    /\ filter is_free kept = filter is_free its
    /\ filter is_paid kept = firstn (Z.to_nat (N - k)) (filter is_paid its)
    /\ k' = k + Z.of_nat (List.length (filter is_paid kept)).
Proof.
  induction its as [|it rest IH]; intros k; cbv zeta.
  - cbn. rewrite firstn_nil. repeat split; [constructor | lia].
  - cbn [adjust_items]. unfold is_paid, is_free in *.
    destruct (Qle_bool (cost_est it) 0) eqn:Hfree.
    + rewrite adjust_items_acc. cbn [fst snd app].
      destruct (IH k) as (Hs & Hf & Hp & Hk).
      cbn [filter]. rewrite Hfree. cbn [negb].
      repeat split.
      * constructor; exact Hs.
      * f_equal. exact Hf.
      * exact Hp.
      * exact Hk.
    + destruct (k <? N) eqn:Hlt.
      * rewrite adjust_items_acc. cbn [fst snd app].
        destruct (IH (k + 1)) as (Hs & Hf & Hp & Hk).
        cbn [filter]. rewrite Hfree. cbn [negb].
        apply Z.ltb_lt in Hlt.
        replace (Z.to_nat (N - k)) with (S (Z.to_nat (N - (k + 1)))) by lia.
        cbn [firstn List.length].
        repeat split.
        -- constructor; exact Hs.
        -- exact Hf.
        -- f_equal. exact Hp.
        -- rewrite Hk. lia.
      * destruct (IH k) as (Hs & Hf & Hp & Hk).
        cbn [filter]. rewrite Hfree. cbn [negb].
        apply Z.ltb_ge in Hlt.
        replace (Z.to_nat (N - k)) with 0%nat in * by lia.
        cbn [firstn] in *.
        repeat split.
        -- constructor; exact Hs.
        -- exact Hf.
        -- exact Hp.
        -- exact Hk.
Qed.

Lemma filter_flat_map_items (p : Attraction -> bool) (d : Day) (ds : list Day) :
  filter p (all_items (d :: ds)) = filter p (items d) ++ filter p (all_items ds).
Proof. unfold all_items. cbn [flat_map]. apply filter_app. Qed.

(** All days: the same, with one counter running through the days. *)
Lemma adjust_days_spec (N : Z) (ds : list Day) :
  forall k : Z,
    Forall2 (fun d d' => day d' = day d
                         /\ subseq (items d') (items d)
                         /\ filter is_free (items d') = filter is_free (items d))
            ds (adjust_days N ds k)
    /\ filter is_paid (all_items (adjust_days N ds k))
       = firstn (Z.to_nat (N - k)) (filter is_paid (all_items ds)).
Proof.
  induction ds as [|d ds IH]; intros k.
  - cbn. rewrite firstn_nil. split; constructor.
  - cbn [adjust_days].
    destruct (adjust_items N (items d) k []) as [new_items k'] eqn:E.
    destruct (adjust_items_spec N (items d) k) as (Hs & Hf & Hp & Hk).
    rewrite E in Hs, Hf, Hp, Hk. cbn [fst snd] in Hs, Hf, Hp, Hk.
    destruct (IH k') as [HF HP].
    split.
    + constructor; [cbn [day items]; auto | exact HF].
    + rewrite !filter_flat_map_items. cbn [items].
      rewrite HP, Hp, firstn_app. f_equal.
      set (paid := filter is_paid (items d)) in *.
      rewrite Hk, Hp.
      destruct (Nat.le_gt_cases (Z.to_nat (N - k)) (List.length paid)) as [Hle|Hgt].
      * rewrite firstn_length_le by exact Hle.
        replace (Z.to_nat (N - (k + Z.of_nat (Z.to_nat (N - k))))) with 0%nat by lia.
        replace (Z.to_nat (N - k) - List.length paid)%nat with 0%nat by lia.
        reflexivity.
      * rewrite (firstn_all2 (n := Z.to_nat (N - k)) paid) by lia.
        f_equal. lia.
Qed.

(** The days of an adjusted itinerary against the days it was made from. *)
Lemma adjust_itinerary_spec (it : Itinerary) (N : Z) :
  Forall2 (fun d d' => day d' = day d
                       /\ subseq (items d') (items d)
                       /\ filter is_free (items d') = filter is_free (items d))
          (plan it) (plan (adjust_itinerary_for_budget it N))
  /\ filter is_paid (all_items (plan (adjust_itinerary_for_budget it N)))
     = firstn (Z.to_nat N) (filter is_paid (all_items (plan it))).
Proof.
  unfold adjust_itinerary_for_budget. cbn [plan].
  destruct (adjust_days_spec N (plan it) 0) as [HF HP].
  rewrite Z.sub_0_r in HP. split; assumption.
Qed.

(** C8. [adjust_itinerary_for_budget] keeps the days; in every day what is
    kept is a subsequence of the day's items that contains all its free
    items, in their order; over all days in order the paid items kept are
    exactly the first [N] paid items, so there are at most [N] of them and no
    paid item after the [N]-th is kept. *)
Theorem adjust_keeps_free_caps_paid (it : Itinerary) (N : Z) :
  let it' := adjust_itinerary_for_budget it N in
  Forall2 (fun d d' => day d' = day d
                       /\ subseq (items d') (items d)
                       /\ filter is_free (items d') = filter is_free (items d))
          (plan it) (plan it')
  /\ filter is_paid (all_items (plan it'))
     = firstn (Z.to_nat N) (filter is_paid (all_items (plan it)))
  /\ (List.length (filter is_paid (all_items (plan it'))) <= Z.to_nat N)%nat.
Proof.
  cbv zeta. destruct (adjust_itinerary_spec it N) as [HF HP].
  split; [exact HF|]. split; [exact HP|].
  rewrite HP. apply firstn_le_length.
Qed.

(* ------------------------------------------------------------------ *)
(** ** C5: the number of days of an itinerary *)

Lemma range1_length (n : Z) : List.length (range1 n) = Z.to_nat n.
Proof. unfold range1. rewrite length_map, length_seq. reflexivity. Qed.

(** [fill_days] makes one day per day number, in order. *)
Lemma fill_days_day (its : list Attraction) (blocks : nat) (ds : list Z) :
  forall idx : nat, map day (fill_days its blocks ds idx) = ds.
Proof.
  induction ds as [|d ds IH]; intros idx; cbn [fill_days].
  - reflexivity.
  - destruct (fill_day its blocks idx []) as [day_items idx'].
    cbn [map day]. rewrite IH. reflexivity.
Qed.

Lemma fill_day_no_items (blocks idx : nat) (acc : list Attraction) :
  fill_day [] blocks idx acc = (acc, idx).
Proof. destruct blocks; cbn; [|destruct idx]; reflexivity. Qed.

Lemma fill_days_no_items (blocks : nat) (ds : list Z) :
  forall idx : nat, Forall (fun d => items d = []) (fill_days [] blocks ds idx).
Proof.
  induction ds as [|d ds IH]; intros idx; cbn [fill_days].
  - constructor.
  - rewrite fill_day_no_items. constructor; [reflexivity | apply IH].
Qed.

Lemma adjust_days_length (N : Z) (ds : list Day) :
  forall k : Z, List.length (adjust_days N ds k) = List.length ds.
Proof.
  induction ds as [|d ds IH]; intros k; cbn [adjust_days].
  - reflexivity.
  - destruct (adjust_items N (items d) k []) as [new_items k'].
    cbn [List.length]. rewrite IH. reflexivity.
Qed.

(** C5. For a positive day count, [build_itinerary] returns a plan of exactly
    [days] days, numbered 1 to [days]; [adjust_itinerary_for_budget] keeps
    that length for every cap; and when no attraction row is of the city every
    day of the plan has an empty item list. *)
Theorem itinerary_has_days (ATTR_CSV : list Attraction) (city : string)
    (days : Z) (interests : list string) (pace : string) :
  0 < days ->
  let it := build_itinerary ATTR_CSV city days interests pace in
  Z.of_nat (List.length (plan it)) = days
  /\ map day (plan it) = range1 days
  /\ (forall N : Z,
        Z.of_nat (List.length (plan (adjust_itinerary_for_budget it N))) = days)
  /\ (filter (fun row => String.eqb (lower (a_city row)) (lower city)) ATTR_CSV = []
      -> Forall (fun d => items d = []) (plan it)).
Proof.
  intros Hpos it.
  assert (Hday : map day (plan it) = range1 days).
  { unfold it, build_itinerary. cbn [plan]. apply fill_days_day. }
  assert (Hlen : Z.of_nat (List.length (plan it)) = days).
  { rewrite <- (length_map day), Hday, range1_length. lia. }
  split; [exact Hlen|]. split; [exact Hday|]. split.
  - intros N. unfold adjust_itinerary_for_budget. cbn [plan].
    rewrite adjust_days_length. exact Hlen.
  - intros Hnone. unfold it, build_itinerary. cbn [plan]. rewrite Hnone.
    destruct interests; cbn [map sort_values fold_right]; apply fill_days_no_items.
Qed.

Lemma itinerary_has_days_witness :
  0 < 3
  /\ let it := build_itinerary sample_attr_rows "Lisbon" 3 ["food"]%string "fast" in
     Z.of_nat (List.length (plan it)) = 3
     /\ map day (plan it) = range1 3
     /\ (forall N : Z,
           Z.of_nat (List.length (plan (adjust_itinerary_for_budget it N))) = 3)
     /\ (filter (fun row => String.eqb (lower (a_city row)) (lower "Lisbon"))
                sample_attr_rows = []
         -> Forall (fun d => items d = []) (plan it)).
Proof.
  split; [lia|].
  apply (itinerary_has_days sample_attr_rows "Lisbon" 3 ["food"]%string "fast").
  lia.
Defined.

(* ------------------------------------------------------------------ *)
(** ** C3: the choice of the destination *)

Lemma nth_error_snoc {A : Type} (l : list A) (x o : A) (j : nat) :
  nth_error (l ++ [x]) j = Some o ->
  ((j < List.length l)%nat /\ nth_error l j = Some o)
  \/ (j = List.length l /\ o = x).
Proof.
  intros H. destruct (Nat.lt_ge_cases j (List.length l)) as [Hlt|Hge].
  - left. split; [exact Hlt|]. rewrite nth_error_app1 in H by exact Hlt. exact H.
  - right. rewrite nth_error_app2 in H by exact Hge.
    destruct (j - List.length l)%nat as [|n] eqn:E; cbn in H.
    + split; [lia | congruence].
    + destruct n; discriminate.
Qed.

Lemma scan_invariant_step (c : Constraints) (l : list Concept) (x : Concept)
    (acc : option Destination * xfloat) :
  scan_invariant c l acc -> scan_invariant c (l ++ [x]) (choose_step c acc x).
Proof.
  intros Hinv. destruct l as [|y l].
  - cbn in Hinv. subst acc. cbn.
    exists 0%nat, x. split; [reflexivity|]. split; [reflexivity|]. split.
    + intros [|[|j]] o Hj; cbn in Hj; try discriminate.
      injection Hj as <-. apply Qle_refl.
    + intros j o Hj. lia.
  - destruct Hinv as (i & opt & Hi & -> & Hmin & Hfirst).
    assert (Hne : exists z zs, (y :: l) ++ [x] = z :: zs) by (eexists; eexists; reflexivity).
    destruct Hne as (z & zs & Ez). unfold scan_invariant. rewrite Ez, <- Ez.
    unfold choose_step, lt_xfloat.
    destruct (Qle_bool (rough_total c opt) (rough_total c x)) eqn:Hcmp; cbn [negb].
    + apply Qle_bool_iff in Hcmp.
      exists i, opt. split.
      { rewrite nth_error_app1; [exact Hi|]. apply nth_error_Some. congruence. }
      split; [reflexivity|]. split.
      * intros j o Hj. apply nth_error_snoc in Hj.
        destruct Hj as [[_ Hj]|[_ ->]]; [exact (Hmin j o Hj) | exact Hcmp].
      * intros j o Hlt Hj. apply nth_error_snoc in Hj.
        destruct Hj as [[_ Hj]|[Ej _]]; [exact (Hfirst j o Hlt Hj)|].
        assert (i < List.length (y :: l))%nat by (apply nth_error_Some; congruence).
        lia.
    + assert (Hlt : (rough_total c x < rough_total c opt)%Q).
      { apply Qnot_le_lt. intros Hle. apply Qle_bool_iff in Hle. congruence. }
      exists (List.length (y :: l)), x. split.
      { rewrite nth_error_app2 by lia. rewrite Nat.sub_diag. reflexivity. }
      split; [reflexivity|]. split.
      * intros j o Hj. apply nth_error_snoc in Hj.
        destruct Hj as [[_ Hj]|[_ ->]]; [|apply Qle_refl].
        apply Qlt_le_weak. eapply Qlt_le_trans; [exact Hlt | exact (Hmin j o Hj)].
      * intros j o Hj1 Hj. apply nth_error_snoc in Hj.
        destruct Hj as [[_ Hj]|[Ej _]]; [|lia].
        eapply Qlt_le_trans; [exact Hlt | exact (Hmin j o Hj)].
Qed.

Lemma scan_invariant_fold (c : Constraints) (options : list Concept) :
  scan_invariant c options (fold_left (choose_step c) options (None, Inf)).
Proof.
  induction options as [|x l IH] using rev_ind.
  - reflexivity.
  - rewrite fold_left_app. cbn [fold_left]. apply scan_invariant_step. exact IH.
Qed.

(** C3. With a non-empty list of options, [choose_destination] selects the
    destination of an option whose rough total is not above that of any
    other option and strictly below that of every option listed before it:
    the first option of least rough total. *)
Theorem choose_lowest_rough_total (s : AgentState) (c : Constraints)
    (options : list Concept) :
  st_constraints s = Some c ->
  st_trip_options s = Some options ->
  options <> [] ->
  exists (s' : AgentState) (i : nat) (opt : Concept),
    choose_destination s = Ok s'
    /\ nth_error options i = Some opt
    /\ st_selected_destination s' = Some (Some (c_destination opt))
    /\ (forall j o, nth_error options j = Some o ->
                    (rough_total c opt <= rough_total c o)%Q)
    /\ (forall j o, (j < i)%nat -> nth_error options j = Some o ->
                    (rough_total c opt < rough_total c o)%Q).
Proof.
  intros Hc Ho Hne.
  pose proof (scan_invariant_fold c options) as Hinv.
  unfold choose_destination. rewrite Hc, Ho. cbn [bind subscript].
  destruct options as [|x l]; [congruence|].
  destruct Hinv as (i & opt & Hi & Hacc & Hmin & Hfirst).
  rewrite Hacc.
  eexists. exists i, opt. split; [reflexivity|].
  split; [exact Hi|]. split; [reflexivity|]. split; assumption.
Qed.

Lemma choose_lowest_rough_total_witness :
  exists (s' : AgentState) (i : nat) (opt : Concept),
    choose_destination sample_state_options = Ok s'
    /\ nth_error sample_options i = Some opt
    /\ st_selected_destination s' = Some (Some (c_destination opt))
    /\ (forall j o, nth_error sample_options j = Some o ->
                    (rough_total (sample_constraints 1000) opt
                     <= rough_total (sample_constraints 1000) o)%Q)
    /\ (forall j o, (j < i)%nat -> nth_error sample_options j = Some o ->
                    (rough_total (sample_constraints 1000) opt
                     < rough_total (sample_constraints 1000) o)%Q).
Proof.
  apply (choose_lowest_rough_total sample_state_options (sample_constraints 1000)
           sample_options); [reflexivity | reflexivity | discriminate].
Defined.

(** On the sample options the tie between the second and the third option
    goes to the second. *)
Example choose_destination_tie :
  map (rough_total (sample_constraints 1000)) sample_options
  = [round2 1380; round2 1318; round2 1318]
  /\ match choose_destination sample_state_options with
     | Ok s' => st_selected_destination s' = Some (Some sample_destination)
     | Raise _ => False
     end.
Proof. split; vm_compute; reflexivity. Qed.

(* ------------------------------------------------------------------ *)
(** ** C9: the breakdown after trimming *)

(** Removing items of non-negative cost does not raise the running total. *)
Lemma add_costs_subseq (l1 l2 : list Attraction) :
  subseq l1 l2 ->
  Forall (fun it => (0 <= cost_est it)%Q) l2 ->
  forall t t' : Q, (t <= t')%Q -> (add_costs t l1 <= add_costs t' l2)%Q.
Proof.
  unfold add_costs.
  induction 1 as [|x l1 l2 Hs IH|x l1 l2 Hs IH]; intros Hpos t t' Ht.
  - exact Ht.
  - inversion Hpos as [|? ? Hx Hrest]; subst. cbn [fold_left].
    apply IH; [exact Hrest|]. lra.
  - inversion Hpos as [|? ? Hx Hrest]; subst. cbn [fold_left].
    apply IH; [exact Hrest|]. lra.
Qed.

Lemma add_day_costs_subseq (ds ds' : list Day) :
  Forall2 (fun d d' => subseq (items d') (items d)) ds ds' ->
  Forall (fun it => (0 <= cost_est it)%Q) (all_items ds) ->
  forall t t' : Q, (t <= t')%Q -> (add_day_costs t ds' <= add_day_costs t' ds)%Q.
Proof.
  unfold add_day_costs.
  induction 1 as [|d d' ds ds' Hd Hrest IH]; intros Hpos t t' Ht.
  - exact Ht.
  - unfold all_items in Hpos. cbn [flat_map] in Hpos.
    apply Forall_app in Hpos. destruct Hpos as [Hpd Hpds].
    cbn [fold_left]. apply IH; [exact Hpds|].
    apply add_costs_subseq; assumption.
Qed.

Lemma activity_cost_after_adjust (it : Itinerary) (N : Z) :
  Forall (fun a => (0 <= cost_est a)%Q) (all_items (plan it)) ->
  (estimate_activity_cost (adjust_itinerary_for_budget it N)
   <= estimate_activity_cost it)%Q.
Proof.
  intros Hpos. unfold estimate_activity_cost. apply round2_mono.
  apply add_day_costs_subseq; [|exact Hpos|apply Qle_refl].
  destruct (adjust_itinerary_spec it N) as [HF _].
  eapply Forall2_impl; [|exact HF]. intros d d' (_ & Hs & _). exact Hs.
Qed.

(** C9. When the breakdown of the EstimateBudget stage is over budget, the
    ValidateAdjust stage trims once, with the cap of the overage tier (1
    above 500, 2 above 250, 3 otherwise): it stores the itinerary trimmed
    with that cap and a breakdown that keeps lodging, food, local transport,
    flights and their total, takes [activities_est] from the trimmed
    itinerary, and, item costs being non-negative, has a grand total not
    above the one before; its [within_budget] is the comparison of the new
    grand total with the budget, whatever the answer; the cap and the new
    breakdown are the entry appended to the trace. *)
Theorem trim_recomputes_budget (s s2 : AgentState) (c : Constraints)
    (it : Itinerary) (b2 : Budget) :
  st_constraints s = Some c ->
  st_itinerary s = Some it ->
  compute_budget s = Ok s2 ->
  st_budget s2 = Some b2 ->
  within_budget b2 = false ->
  Forall (fun a => (0 <= cost_est a)%Q) (all_items (plan it)) ->
  let over := (grand_total_est b2 - inject_Z (budget c))%Q in
  exists (s3 : AgentState) (b3 : Budget) (cap : Z),
    validate_and_adjust s2 = Ok s3
    /\ st_itinerary s3 = Some (adjust_itinerary_for_budget it cap)
    /\ st_budget s3 = Some b3
    /\ lodging b3 = lodging b2
    /\ food b3 = food b2
    /\ local_transport b3 = local_transport b2
    /\ flights_est b3 = flights_est b2
    /\ total_est b3 = total_est b2
    /\ activities_est b3
       = estimate_activity_cost (adjust_itinerary_for_budget it cap)
    /\ (grand_total_est b3 == total_est b2 + activities_est b3)%Q
    /\ (grand_total_est b3 <= grand_total_est b2)%Q
    /\ within_budget b3 = Qle_bool (grand_total_est b3) (float (budget c))
    /\ ((500 < over)%Q -> cap = 1)
    /\ ((250 < over)%Q -> (over <= 500)%Q -> cap = 2)
    /\ ((over <= 250)%Q -> cap = 3)
    /\ (exists h, st_history s3 = h ++ [H_validate_adjust_reduced cap b3]
                  /\ map node h = map node (st_history s2)).
Proof.
  intros Hc Hi Hcb Hb2 Hw Hpos over.
  destruct (st_selected_destination s) as [[d|]|] eqn:Hd;
    try (unfold compute_budget in Hcb; rewrite Hc, Hd in Hcb; discriminate).
  pose proof (compute_budget_ok s c d it Hc Hd Hi) as Hcb'. cbv zeta in Hcb'.
  rewrite Hcb in Hcb'. injection Hcb' as ->.
  cbn in Hb2. injection Hb2 as <-.
  set (base := estimate_budget d (days c) (travelers c) (flight_est_per_person c)) in *.
  set (b2 := mkBudget _ _ _ _ _ _ _ _) in *.
  set (s2 := _push (set_budget b2 s) (H_estimate_budget b2)).
  pose proof (validate_and_adjust_over s2 c b2 it Hc eq_refl Hi Hw) as Hv.
  cbv zeta in Hv. unfold float in Hv at 1 2. fold over in Hv.
  set (cap := if negb (Qle_bool over 500) then 1
              else if negb (Qle_bool over 250) then 2 else 3) in Hv.
  eexists. eexists. exists cap. split; [exact Hv|].
  repeat (split; [reflexivity|]).
  cbn [grand_total_est total_est activities_est within_budget b2].
  split; [exact (round2_add_rounded _ _)|]. split.
  { apply round2_mono. apply Qplus_le_r. apply activity_cost_after_adjust.
    exact Hpos. }
  split; [apply flag_of_estimates|].
  destruct (max_paid_tiers over) as (T1 & T2 & T3).
  split; [exact T1|]. split; [exact T2|]. split; [exact T3|].
  eexists. split; [reflexivity|]. apply share_preview_nodes.
Qed.

Lemma trim_recomputes_budget_witness :
  let over := (grand_total_est sample_budget - inject_Z 1000)%Q in
  exists (s3 : AgentState) (b3 : Budget) (cap : Z),
    validate_and_adjust (sample_state_over 1000) = Ok s3
    /\ st_itinerary s3 = Some (adjust_itinerary_for_budget sample_itinerary cap)
    /\ st_budget s3 = Some b3
    /\ lodging b3 = lodging sample_budget
    /\ food b3 = food sample_budget
    /\ local_transport b3 = local_transport sample_budget
    /\ flights_est b3 = flights_est sample_budget
    /\ total_est b3 = total_est sample_budget
    /\ activities_est b3
       = estimate_activity_cost (adjust_itinerary_for_budget sample_itinerary cap)
    /\ (grand_total_est b3 == total_est sample_budget + activities_est b3)%Q
    /\ (grand_total_est b3 <= grand_total_est sample_budget)%Q
    /\ within_budget b3
       = Qle_bool (grand_total_est b3) (float (budget (sample_constraints 1000)))
    /\ ((500 < over)%Q -> cap = 1)
    /\ ((250 < over)%Q -> (over <= 500)%Q -> cap = 2)
    /\ ((over <= 250)%Q -> cap = 3)
    /\ (exists h, st_history s3 = h ++ [H_validate_adjust_reduced cap b3]
                  /\ map node h = map node (st_history (sample_state_over 1000))).
Proof.
  apply (trim_recomputes_budget (sample_state 1000) (sample_state_over 1000)
           (sample_constraints 1000) sample_itinerary sample_budget);
    try reflexivity.
  unfold sample_itinerary, all_items, sample_attractions. cbn.
  repeat constructor; discriminate.
Defined.

(** Trimming is done once: on the sample state the breakdown after it is
    still over the budget of 1000, and says so. *)
Example trim_may_stay_over_budget :
  match validate_and_adjust (sample_state_over 1000) with
  | Ok s3 =>
      option_map (fun b => (activities_est b, grand_total_est b, within_budget b))
                 (st_budget s3)
      = Some (round2 72, round2 1390, false)
  | Raise _ => False
  end.
Proof. vm_compute. reflexivity. Qed.

(** The days are rewritten in place: with a budget of 800 the cap is 1, the
    food tour leaves day 1, and the preview that the BuildItinerary stage
    had pushed on the trace shows day 1 as trimmed. *)
Example trim_shows_in_preview :
  let s := set_history [H_build_itinerary (firstn 1 (plan sample_itinerary));
                        H_estimate_budget sample_budget]
                       (sample_state_over 800) in
  match validate_and_adjust s with
  | Ok s' =>
      match st_history s', st_itinerary s' with
      | H_build_itinerary preview :: _, Some it' =>
          preview = firstn 1 (plan it')
          /\ map a_name (all_items preview) = ["Museum"; "Bridge"]%string
      | _, _ => False
      end
  | Raise _ => False
  end.
Proof. vm_compute. split; reflexivity. Qed.

(* ------------------------------------------------------------------ *)
(** ** C2: a run without any matching destination *)

(** The run up to the failing node when the search finds nothing. *)
Lemma invoke_no_destination (DEST_CSV : list Destination)
    (ATTR_CSV : list Attraction) (user_request : string) :
  let c := parse_constraints (strip user_request) in
  search_destinations DEST_CSV (region c) (interests c) = [] ->
  invoke DEST_CSV ATTR_CSV user_request
  = Aborted "build_itinerary"
      (TypeError "'NoneType' object is not subscriptable")
      (mkState (Some user_request) (Some c) (Some []) (Some None) None None
         None None
         [H_parse_request c; H_propose_options [];
          H_choose_destination None Inf]).
Proof.
  intros c Hnone.
  unfold invoke, build_graph, invoke_nodes, parse_request, initial_state,
    request_text.
  cbn [st_user_request]. fold c.
  unfold make_options.
  cbn [set_constraints _push st_constraints st_user_request st_trip_options
       st_selected_destination st_itinerary st_budget st_checklist
       st_final_plan st_history bind subscript app].
  rewrite Hnone.
  reflexivity.
Qed.

(** C2 (as the code has it). When the search returns no destination, the
    list of options is empty, the ChooseDestination stage completes with no
    selection ([None], rough total infinite) and records its trace entry, and
    the run aborts in the BuildItinerary stage on the subscript of [None];
    no final plan is produced. *)
Theorem no_destination_aborts_run (DEST_CSV : list Destination)
    (ATTR_CSV : list Attraction) (user_request : string) :
  let c := parse_constraints (strip user_request) in
  search_destinations DEST_CSV (region c) (interests c) = [] ->
  exists s : AgentState,
    invoke DEST_CSV ATTR_CSV user_request
    = Aborted "build_itinerary"
        (TypeError "'NoneType' object is not subscriptable") s
    /\ st_trip_options s = Some []
    /\ st_selected_destination s = Some None
    /\ st_history s = [H_parse_request c; H_propose_options [];
                       H_choose_destination None Inf]
    /\ st_final_plan s = None.
Proof.
  intros c Hnone. eexists. split.
  - apply invoke_no_destination. exact Hnone.
  - repeat split.
Qed.

Lemma no_destination_aborts_run_witness :
  let c := parse_constraints (strip "5 day trip in asia") in
  exists s : AgentState,
    invoke sample_dest_rows sample_attr_rows "5 day trip in asia"
    = Aborted "build_itinerary"
        (TypeError "'NoneType' object is not subscriptable") s
    /\ st_trip_options s = Some []
    /\ st_selected_destination s = Some None
    /\ st_history s = [H_parse_request c; H_propose_options [];
                       H_choose_destination None Inf]
    /\ st_final_plan s = None.
Proof.
  apply (no_destination_aborts_run sample_dest_rows sample_attr_rows
           "5 day trip in asia").
  vm_compute. reflexivity.
Defined.

(** The claim as stated fails: for a request for Asia against a catalog of
    European cities the search returns nothing, yet the run does not abort
    before the ChooseDestination stage has completed: the state at the abort
    holds that stage's trace entry. *)
Lemma abort_before_choose_counterexample :
  let c := parse_constraints (strip "5 day trip in asia") in
  search_destinations sample_dest_rows (region c) (interests c) = []
  /\ ~ (exists (n : string) (e : error) (s : AgentState),
          invoke sample_dest_rows sample_attr_rows "5 day trip in asia"
          = Aborted n e s
          /\ ~ In "choose_destination"%string (map node (st_history s))).
Proof.
  cbv zeta. split; [vm_compute; reflexivity|].
  intros (n & e & s & Hrun & Hnot).
  rewrite invoke_no_destination in Hrun by (vm_compute; reflexivity).
  injection Hrun as _ _ <-. apply Hnot. cbn. auto.
Qed.

(* ------------------------------------------------------------------ *)
(** ** C10: the day and traveler counts of the parsed constraints *)

Section GroupTexts.
Variable g : nat.
Variable P : list ascii -> Prop.

Lemma iterate_group_has
    (m1 : option ascii -> list ascii -> captures -> list success) :
  (forall prev rest caps s,
      In s (m1 prev rest caps) -> group_has g P caps -> group_has g P (snd s)) ->
  forall (n lo : nat) prev rest caps s,
    In s (iterate m1 n lo prev rest caps) ->
    group_has g P caps -> group_has g P (snd s).
Proof.
  intros Hm1. induction n as [|n IH]; intros lo prev rest caps s Hin Hcaps.
  - cbn in Hin. destruct (Nat.eqb lo 0); cbn in Hin; [|contradiction].
    destruct Hin as [<-|[]]. exact Hcaps.
  - cbn [iterate] in Hin. apply in_app_or in Hin. destruct Hin as [Hin|Hin].
    + apply in_flat_map in Hin. destruct Hin as ([[c1 rest1] caps1] & H1 & Hin).
      pose proof (Hm1 _ _ _ _ H1 Hcaps) as Hcaps1. cbn [snd] in Hcaps1.
      assert (Hmap : In s (map (fun '(c2, rest2, caps2) => (c1 ++ c2, rest2, caps2))
                             (iterate m1 n (Nat.pred lo) (last_char prev c1)
                                rest1 caps1))).
      { destruct c1 as [|a c1]; [destruct lo as [|lo]|]; [contradiction| |];
          exact Hin. }
      apply in_map_iff in Hmap. destruct Hmap as ([[c2 rest2] caps2] & <- & H2).
      exact (IH _ _ _ _ _ H2 Hcaps1).
    + destruct (Nat.eqb lo 0); cbn in Hin; [|contradiction].
      destruct Hin as [<-|[]]. exact Hcaps.
Qed.

Lemma matches_group_has (r : regex) :
  group_pattern_has g P r ->
  forall prev rest caps s,
    In s (matches r prev rest caps) ->
    group_has g P caps -> group_has g P (snd s).
Proof.
  induction r as [c| | | |r1 IH1 r2 IH2|r1 IH1 r2 IH2|r1 IH1 lo hi|g' r1 IH1];
    intros Hpat prev rest caps s Hin Hcaps; cbn [matches] in Hin.
  - destruct rest as [|c' t]; [contradiction|].
    destruct (Ascii.eqb c' c); [|contradiction].
    destruct Hin as [<-|[]]. exact Hcaps.
  - destruct rest as [|c' t]; [contradiction|].
    destruct (is_digit c'); [|contradiction].
    destruct Hin as [<-|[]]. exact Hcaps.
  - destruct rest as [|c' t]; [contradiction|].
    destruct (is_space c'); [|contradiction].
    destruct Hin as [<-|[]]. exact Hcaps.
  - destruct (xorb _ _); [|contradiction].
    destruct Hin as [<-|[]]. exact Hcaps.
  - destruct Hpat as [Hp1 Hp2].
    apply in_flat_map in Hin. destruct Hin as ([[c1 rest1] caps1] & H1 & Hin).
    apply in_map_iff in Hin. destruct Hin as ([[c2 rest2] caps2] & <- & H2).
    pose proof (IH1 Hp1 _ _ _ _ H1 Hcaps) as Hcaps1.
    exact (IH2 Hp2 _ _ _ _ H2 Hcaps1).
  - destruct Hpat as [Hp1 Hp2]. apply in_app_or in Hin.
    destruct Hin as [Hin|Hin]; [exact (IH1 Hp1 _ _ _ _ Hin Hcaps)
                               | exact (IH2 Hp2 _ _ _ _ Hin Hcaps)].
  - cbn [group_pattern_has] in Hpat.
    exact (iterate_group_has (matches r1) (IH1 Hpat) _ _ _ _ _ _ Hin Hcaps).
  - destruct Hpat as [Hhere Hp1].
    apply in_map_iff in Hin. destruct Hin as ([[c rest1] caps1] & <- & H1).
    pose proof (IH1 Hp1 _ _ _ _ H1 Hcaps) as Hcaps1. cbn [snd] in *.
    intros t Ht. cbn [group] in Ht.
    destruct (Nat.eqb g g') eqn:Eg.
    + apply Nat.eqb_eq in Eg. injection Ht as <-.
      exact (Hhere (eq_sym Eg) _ _ _ _ _ _ H1).
    + exact (Hcaps1 t Ht).
Qed.

Lemma search_from_group_has (r : regex) :
  group_pattern_has g P r ->
  forall rest prev m, search_from r prev rest = Some m -> group_has g P m.
Proof.
  intros Hpat.
  assert (Hnil : group_has g P []) by (intros t Ht; discriminate).
  induction rest as [|c rest IH]; intros prev m Hs; cbn [search_from] in Hs.
  - destruct (matches r prev [] []) as [|[[c0 r0] caps0] l] eqn:E; [discriminate|].
    injection Hs as <-.
    apply (matches_group_has r Hpat prev [] [] (c0, r0, caps0)); [|exact Hnil].
    rewrite E. left. reflexivity.
  - destruct (matches r prev (c :: rest) []) as [|[[c0 r0] caps0] l] eqn:E.
    + exact (IH _ _ Hs).
    + injection Hs as <-.
      apply (matches_group_has r Hpat prev (c :: rest) [] (c0, r0, caps0));
        [|exact Hnil].
      rewrite E. left. reflexivity.
Qed.
End GroupTexts.

(** [\d{1,2}] consumes one or two digits. *)
Lemma two_digits_pattern (prev : option ascii) (rest : list ascii)
    (caps : captures) (c rest' : list ascii) (caps' : captures) :
  In (c, rest', caps') (matches (Rep Digit 1 (Some 2%nat)) prev rest caps) ->
  digits12 c.
Proof.
  cbn. destruct rest as [|a rest]; [intros []|].
  destruct (is_digit a) eqn:Ha; [|intros []].
  cbn. destruct rest as [|b rest].
  - cbn. intros [H|[]]. injection H as <- _ _.
    split; [left; reflexivity | cbn; rewrite Ha; reflexivity].
  - destruct (is_digit b) eqn:Hb; cbn.
    + intros [H|[H|[]]]; injection H as <- _ _.
      * split; [right; reflexivity | cbn; rewrite Ha, Hb; reflexivity].
      * split; [left; reflexivity | cbn; rewrite Ha; reflexivity].
    + intros [H|[]]. injection H as <- _ _.
      split; [left; reflexivity | cbn; rewrite Ha; reflexivity].
Qed.

Ltac captured_digits :=
  repeat match goal with
         | |- _ /\ _ => split
         | |- True => exact I
         | |- _ -> _ => intro
         | |- forall _, _ => intro
         | H : In _ (matches (Rep Digit 1 (Some 2%nat)) _ _ _) |- digits12 _ =>
             exact (two_digits_pattern _ _ _ _ _ _ H)
         end.

Lemma re_days_groups (g : nat) : group_pattern_has g digits12 re_days.
Proof.
  unfold re_days, digits, star. cbn [group_pattern_has cat lit].
  captured_digits.
Qed.

Lemma re_travelers_group1 : group_pattern_has 1 digits12 re_travelers.
Proof.
  unfold re_travelers, digits, plus. cbn [group_pattern_has cat lit].
  captured_digits; discriminate.
Qed.

Lemma is_digit_cases (a : ascii) :
  is_digit a = true ->
  In a ["0"; "1"; "2"; "3"; "4"; "5"; "6"; "7"; "8"; "9"]%char.
Proof.
  destruct a as [[] [] [] [] [] [] [] []]; intros H;
    try discriminate H; cbn; tauto.
Qed.

(** [int] of one or two digits is their value, between 0 and 99. *)
Lemma int_of_digits12 (t : list ascii) :
  digits12 t ->
  exists v : Z, int_of_string (string_of_list_ascii t) = Some v /\ 0 <= v <= 99.
Proof.
  intros [Hlen Hd].
  destruct t as [|a [|b [|x t]]]; cbn in Hlen;
    try (destruct Hlen as [Hlen|Hlen]; discriminate Hlen).
  - cbn in Hd. rewrite andb_true_r in Hd. apply is_digit_cases in Hd.
    cbn in Hd.
    repeat (destruct Hd as [<-|Hd];
            [eexists; split; [vm_compute; reflexivity | lia]|]).
    contradiction.
  - cbn in Hd. rewrite andb_true_r in Hd. apply andb_true_iff in Hd.
    destruct Hd as [Ha Hb].
    apply is_digit_cases in Ha. apply is_digit_cases in Hb. cbn in Ha, Hb.
    repeat (destruct Ha as [<-|Ha];
            [repeat (destruct Hb as [<-|Hb];
                     [eexists; split; [vm_compute; reflexivity | lia]|]);
             contradiction|]).
    contradiction.
Qed.

Lemma safe_int_in_range (x : option string) (default : Z) :
  (forall s, x = Some s -> exists t, s = string_of_list_ascii t /\ digits12 t) ->
  0 <= default <= 99 ->
  0 <= _safe_int x default <= 99.
Proof.
  intros Hx Hdef. unfold _safe_int. destruct x as [s|]; [|exact Hdef].
  destruct (Hx s eq_refl) as (t & -> & Ht).
  destruct (int_of_digits12 t Ht) as (v & -> & Hv). exact Hv.
Qed.

Lemma m_group_digits (m : captures) (g : nat) :
  group_has g digits12 m ->
  forall s, m_group m g = Some s ->
            exists t, s = string_of_list_ascii t /\ digits12 t.
Proof.
  intros Hm s Hs. unfold m_group in Hs.
  destruct (group m g) as [t|] eqn:E; [|discriminate].
  injection Hs as <-. exists t. split; [reflexivity | exact (Hm t E)].
Qed.

(** C10 (as the code has it). For every state, the extraction stage returns
    and stores constraints whose [days] and [travelers] are integers between
    0 and 99; they are the defaults 5 and 2 when the text of the request has
    no match of the day pattern, respectively of the traveler pattern. *)
Theorem parsed_counts_in_range (state : AgentState) :
  exists (s' : AgentState) (c : Constraints),
    parse_request state = Ok s'
    /\ st_constraints s' = Some c
    /\ 0 <= days c <= 99
    /\ 0 <= travelers c <= 99
    /\ (re_search re_days (lower (request_text state)) = None -> days c = 5)
    /\ (re_search re_travelers (lower (request_text state)) = None ->
        travelers c = 2).
Proof.
  eexists. eexists. split; [reflexivity|]. split; [reflexivity|].
  cbn [days travelers parse_constraints].
  set (low := lower (request_text state)).
  repeat split.
  - destruct (re_search re_days low) as [m|] eqn:E; [|lia].
    apply safe_int_in_range; [|lia].
    pose proof (search_from_group_has 1 digits12 re_days (re_days_groups 1) _ _ _ E) as H1.
    pose proof (search_from_group_has 2 digits12 re_days (re_days_groups 2) _ _ _ E) as H2.
    intros s Hs. unfold or_else in Hs.
    destruct (truthy (m_group m 1));
      [exact (m_group_digits m 1 H1 s Hs) | exact (m_group_digits m 2 H2 s Hs)].
  - destruct (re_search re_days low) as [m|] eqn:E; [|lia].
    apply safe_int_in_range; [|lia].
    pose proof (search_from_group_has 1 digits12 re_days (re_days_groups 1) _ _ _ E) as H1.
    pose proof (search_from_group_has 2 digits12 re_days (re_days_groups 2) _ _ _ E) as H2.
    intros s Hs. unfold or_else in Hs.
    destruct (truthy (m_group m 1));
      [exact (m_group_digits m 1 H1 s Hs) | exact (m_group_digits m 2 H2 s Hs)].
  - destruct (re_search re_travelers low) as [m|] eqn:E; [|lia].
    apply safe_int_in_range; [|lia].
    pose proof (search_from_group_has 1 digits12 re_travelers re_travelers_group1 _ _ _ E) as H1.
    exact (m_group_digits m 1 H1).
  - destruct (re_search re_travelers low) as [m|] eqn:E; [|lia].
    apply safe_int_in_range; [|lia].
    pose proof (search_from_group_has 1 digits12 re_travelers re_travelers_group1 _ _ _ E) as H1.
    exact (m_group_digits m 1 H1).
  - intros ->. reflexivity.
  - intros ->. reflexivity.
Qed.

(** The claim as stated fails: a request for a 0-day trip for 0 people
    matches both patterns, and the stored counts are 0. *)
Lemma zero_counts_counterexample :
  exists (s' : AgentState) (c : Constraints),
    parse_request (initial_state "a 0-day trip for 0 people") = Ok s'
    /\ st_constraints s' = Some c
    /\ days c = 0
    /\ travelers c = 0
    /\ ~ (0 < days c /\ 0 < travelers c).
Proof.
  eexists. eexists. split; [reflexivity|]. split; [reflexivity|].
  split; [vm_compute; reflexivity|]. split; [vm_compute; reflexivity|].
  intros [H _]. vm_compute in H. discriminate H.
Qed.

(* ------------------------------------------------------------------ *)
(** ** Whole runs *)

(** A run whose search finds a destination goes through the seven nodes:
    it selects the destination of one of the options, and ends with a final
    plan and with a breakdown whose flag is the comparison of its grand total
    with the budget. *)
Lemma invoke_with_destination (DEST_CSV : list Destination)
    (ATTR_CSV : list Attraction) (user_request : string) :
  let c := parse_constraints (strip user_request) in
  let options :=
    propose_trip_concepts c
      (search_destinations DEST_CSV (region c) (interests c)) in
  options <> [] ->
  exists (s : AgentState) (opt : Concept) (it : Itinerary) (b : Budget),
    invoke DEST_CSV ATTR_CSV user_request = Finished s
    /\ In opt options
    /\ st_constraints s = Some c
    /\ st_selected_destination s = Some (Some (c_destination opt))
    /\ st_itinerary s = Some it
    /\ map day (plan it) = range1 (days c)
    /\ st_budget s = Some b
    /\ within_budget b = Qle_bool (grand_total_est b) (float (budget c))
    /\ st_final_plan s <> None
    /\ map node (st_history s)
       = ["parse_request"; "propose_options"; "choose_destination";
          "build_itinerary"; "estimate_budget"; "validate_adjust";
          "finalize"]%string.
Proof.
  intros c options Hne.
  unfold invoke, build_graph. cbn [invoke_nodes].
  unfold parse_request, initial_state, request_text. cbn [st_user_request].
  fold c.
  set (s1 := _push _ (H_parse_request c)).
  unfold make_options. cbn [s1 set_constraints _push st_constraints bind subscript].
  fold options.
  set (s2 := _push _ (H_propose_options options)).
  pose proof (scan_invariant_fold c options) as Hinv.
  destruct options as [|x l] eqn:Eo; [congruence|].
  destruct Hinv as (i & opt & Hi & Hacc & _ & _).
  unfold choose_destination.
  cbn [s2 s1 set_trip_options set_constraints _push st_constraints
       st_trip_options bind subscript].
  rewrite Hacc.
  set (s3 := _push _ (H_choose_destination _ _)).
  unfold build_plan.
  cbn [s3 s2 s1 set_selected_destination set_trip_options set_constraints _push
       st_constraints st_selected_destination bind subscript not_none].
  set (it := build_itinerary ATTR_CSV _ _ _ _).
  set (s4 := _push _ (H_build_itinerary _)).
  assert (Hc4 : st_constraints s4 = Some c) by reflexivity.
  assert (Hd4 : st_selected_destination s4 = Some (Some (c_destination opt)))
    by reflexivity.
  assert (Hi4 : st_itinerary s4 = Some it) by reflexivity.
  pose proof (compute_budget_ok s4 c _ it Hc4 Hd4 Hi4) as Hcb. cbv zeta in Hcb.
  rewrite Hcb.
  set (b2 := mkBudget _ _ _ _ _ _ _ _).
  set (s5 := _push (set_budget b2 s4) (H_estimate_budget b2)).
  assert (Hflag : within_budget b2 = Qle_bool (grand_total_est b2) (float (budget c)))
    by apply flag_of_estimates.
  assert (Hday : map day (plan it) = range1 (days c)).
  { unfold it, build_itinerary. cbn [plan]. apply fill_days_day. }
  destruct (within_budget b2) eqn:Hw.
  - rewrite (validate_and_adjust_within s5 c b2 Hc4 eq_refl Hw).
    exists (match finalize (_push s5 H_validate_adjust_no_change) with
            | Ok s => s | Raise _ => s5 end), opt, it, b2.
    repeat split; try reflexivity; try discriminate.
    + eapply nth_error_In. exact Hi.
    + exact Hday.
    + exact (eq_trans Hw Hflag).
  - pose proof (validate_and_adjust_over s5 c b2 it Hc4 eq_refl Hi4 Hw) as Hv.
    cbv zeta in Hv. rewrite Hv.
    set (cap := if negb (Qle_bool (grand_total_est b2 - float (budget c)) 500) then 1
                else if negb (Qle_bool (grand_total_est b2 - float (budget c)) 250)
                     then 2 else 3).
    set (it' := adjust_itinerary_for_budget it cap).
    set (nb := mkBudget _ _ _ _ _ _ _ _).
    exists (match finalize
                    (_push (set_budget nb
                              (set_itinerary it'
                                 (set_history (share_preview it' (st_history s5))
                                    s5)))
                           (H_validate_adjust_reduced cap nb)) with
            | Ok s => s | Raise _ => s5 end), opt, it', nb.
    repeat split; try reflexivity; try discriminate.
    + eapply nth_error_In. exact Hi.
    + unfold it', adjust_itinerary_for_budget. cbn [plan].
      destruct (adjust_days_spec cap (plan it) 0) as [HF _].
      rewrite <- Hday. clear - HF.
      induction HF as [|d d' ds ds' (Hd & _) _ IH]; cbn [map]; [reflexivity|].
      rewrite Hd, IH. reflexivity.
    + apply flag_of_estimates.
Qed.

(* ================================================================== *)
(** * Further properties of the tools and of the graph *)

(* ------------------------------------------------------------------ *)
(** ** Sorting *)

Section SortFacts.
Context {A : Type}.
Variable before : A -> A -> bool.

Lemma insert_sorted_perm (x : A) (l : list A) :
  Permutation (insert_sorted before x l) (x :: l).
Proof.
  induction l as [|y l IH]; cbn [insert_sorted].
  - apply Permutation_refl.
  - destruct (before x y).
    + apply Permutation_refl.
    + eapply Permutation_trans; [apply perm_skip; exact IH | apply perm_swap].
Qed.

Lemma sort_values_perm (l : list A) : Permutation (sort_values before l) l.
Proof.
  induction l as [|x l IH]; cbn.
  - apply Permutation_refl.
  - eapply Permutation_trans; [apply insert_sorted_perm | apply perm_skip; exact IH].
Qed.

Hypothesis before_total : forall x y, before x y = false -> before y x = true.
Hypothesis before_trans :
  forall x y z, before x y = true -> before y z = true -> before x z = true.

Lemma insert_sorted_sorted (x : A) (l : list A) :
  StronglySorted (fun a b => before a b = true) l ->
  StronglySorted (fun a b => before a b = true) (insert_sorted before x l).
Proof.
  induction 1 as [|y l Hs IH Hy]; cbn [insert_sorted].
  - constructor; constructor.
  - destruct (before x y) eqn:E.
    + constructor; [constructor; assumption|].
      constructor; [exact E|].
      eapply Forall_impl; [|exact Hy]. intros z Hz. exact (before_trans _ _ _ E Hz).
    + constructor; [exact IH|].
      eapply Permutation_Forall;
        [apply Permutation_sym; apply insert_sorted_perm|].
      constructor; [apply before_total; exact E | exact Hy].
Qed.

Lemma sort_values_sorted (l : list A) :
  StronglySorted (fun a b => before a b = true) (sort_values before l).
Proof.
  induction l as [|x l IH]; cbn.
  - constructor.
  - apply insert_sorted_sorted. exact IH.
Qed.
End SortFacts.

Lemma in_firstn {A : Type} (n : nat) (l : list A) (x : A) :
  In x (firstn n l) -> In x l.
Proof.
  intros H. rewrite <- (firstn_skipn n l). apply in_or_app. left. exact H.
Qed.

Lemma in_skipn {A : Type} (n : nat) (l : list A) (x : A) :
  In x (skipn n l) -> In x l.
Proof.
  intros H. rewrite <- (firstn_skipn n l). apply in_or_app. right. exact H.
Qed.

(** A prefix of a sorted list is sorted and ranks before what is left. *)
Lemma firstn_sorted {A : Type} (R : A -> A -> Prop) (n : nat) (l : list A) :
  StronglySorted R l ->
  StronglySorted R (firstn n l)
  /\ Forall (fun y => Forall (fun x => R x y) (firstn n l)) (skipn n l).
Proof.
  intros Hs. revert n. induction Hs as [|x l Hs IH Hx]; intros n.
  - rewrite firstn_nil, skipn_nil. split; constructor.
  - destruct n as [|n]; cbn [firstn skipn].
    + split; [constructor|]. apply Forall_forall. intros y _. constructor.
    + destruct (IH n) as [IH1 IH2]. split.
      * constructor; [exact IH1|].
        apply Forall_forall. intros z Hz. rewrite Forall_forall in Hx.
        apply Hx. eapply in_firstn; eauto.
      * rewrite Forall_forall in IH2 |- *. intros y Hy.
        constructor; [|exact (IH2 y Hy)].
        rewrite Forall_forall in Hx. apply Hx.
        eapply in_skipn; eauto.
Qed.

Lemma lex_before_total (a b : Z) (x y : Q) :
  lex_before (a ?= b) (Qcompare x y) = false ->
  lex_before (b ?= a) (Qcompare y x) = true.
Proof.
  rewrite (Z.compare_antisym a b), <- (Qcompare_antisym x y).
  destruct (a ?= b); destruct (Qcompare x y); cbn; congruence.
Qed.

Lemma lex_before_trans (a b c : Z) (x y z : Q) :
  lex_before (b ?= a) (Qcompare x y) = true ->
  lex_before (c ?= b) (Qcompare y z) = true ->
  lex_before (c ?= a) (Qcompare x z) = true.
Proof.
  destruct (Z.compare_spec b a); destruct (Z.compare_spec c b);
    destruct (Z.compare_spec c a); try lia; cbn; try congruence;
    destruct (Qcompare_spec x y); destruct (Qcompare_spec y z);
    destruct (Qcompare_spec x z); cbn; try congruence; intros _ _; exfalso; lra.
Qed.

Lemma dest_before_total (x y : Destination) :
  dest_before x y = false -> dest_before y x = true.
Proof. unfold dest_before. apply lex_before_total. Qed.

Lemma dest_before_trans (x y z : Destination) :
  dest_before x y = true -> dest_before y z = true -> dest_before x z = true.
Proof.
  unfold dest_before. intros H1 H2. exact (lex_before_trans _ _ _ _ _ _ H1 H2).
Qed.

(* ------------------------------------------------------------------ *)
(** ** [search_destinations] *)

Lemma filter_all {A : Type} (l : list A) : filter (fun _ => true) l = l.
Proof. induction l as [|x l IH]; cbn; [|rewrite IH]; reflexivity. Qed.

(** [search_destinations] as one pipeline over the matching rows. *)
Lemma search_destinations_eq (DEST_CSV : list Destination)
    (region : option string) (interests : list string) :
  search_destinations DEST_CSV region interests
  = firstn 4
      (sort_values dest_before
         (map (fun row => set_score (score_tags interests row) row)
              (filter (region_matches region) DEST_CSV))).
Proof.
  unfold search_destinations.
  destruct region as [[|c r]|]; cbn [truthy region_matches];
    rewrite ?filter_all; reflexivity.
Qed.

Lemma score_tags_bounds (interests : list string) (row : Destination) :
  0 <= score_tags interests row <= Z.of_nat (List.length interests).
Proof.
  unfold score_tags. split; [lia|].
  apply inj_le. apply filter_length_le.
Qed.

(** X1. The search returns at most four destinations, all of them when fewer
    than four rows pass the region filter; each is a row of the catalog that
    passes the filter, with its score, the number of interests among its
    tags. *)
Theorem search_destinations_rows (DEST_CSV : list Destination)
    (region : option string) (interests : list string) :
  let res := search_destinations DEST_CSV region interests in
  (List.length res <= 4)%nat
  /\ List.length res
     = Nat.min 4 (List.length (filter (region_matches region) DEST_CSV))
  /\ Forall (fun d =>
               exists row,
                 In row DEST_CSV
                 /\ region_matches region row = true
                 /\ d = set_score (score_tags interests row) row
                 /\ 0 <= score_tags interests row
                      <= Z.of_nat (List.length interests))
            res.
Proof.
  cbv zeta. rewrite search_destinations_eq.
  set (rows := filter (region_matches region) DEST_CSV).
  set (scored := map (fun row => set_score (score_tags interests row) row) rows).
  assert (Hperm : Permutation (sort_values dest_before scored) scored)
    by apply sort_values_perm.
  split; [rewrite length_firstn; lia|]. split.
  - rewrite length_firstn, (Permutation_length Hperm).
    unfold scored. rewrite length_map. reflexivity.
  - apply Forall_forall. intros d Hd.
    apply in_firstn in Hd. apply (Permutation_in _ Hperm) in Hd.
    unfold scored in Hd. apply in_map_iff in Hd. destruct Hd as (row & <- & Hrow).
    unfold rows in Hrow. apply filter_In in Hrow. destruct Hrow as [Hin Hreg].
    exists row. repeat split; try assumption; apply score_tags_bounds.
Qed.

(** X2. The destinations returned are in rank order, score descending and then
    lodging price ascending, and every row that passes the region filter is
    either returned or ranks after all the destinations returned. *)
Theorem search_destinations_ranked (DEST_CSV : list Destination)
    (region : option string) (interests : list string) :
  let res := search_destinations DEST_CSV region interests in
  StronglySorted (fun x y => dest_before x y = true) res
  /\ forall row,
       In row DEST_CSV ->
       region_matches region row = true ->
       let d := set_score (score_tags interests row) row in
       In d res \/ Forall (fun x => dest_before x d = true) res.
Proof.
  cbv zeta. rewrite search_destinations_eq.
  set (scored := map (fun row => set_score (score_tags interests row) row)
                     (filter (region_matches region) DEST_CSV)).
  pose proof (sort_values_sorted dest_before dest_before_total dest_before_trans
                scored) as Hs.
  destruct (firstn_sorted _ 4 _ Hs) as [H1 H2].
  split; [exact H1|].
  intros row Hin Hreg.
  assert (Hd : In (set_score (score_tags interests row) row)
                  (sort_values dest_before scored)).
  { apply (Permutation_in _ (Permutation_sym (sort_values_perm dest_before scored))).
    unfold scored.
    apply (in_map (fun row => set_score (score_tags interests row) row)).
    apply filter_In. split; assumption. }
  rewrite <- (firstn_skipn 4 (sort_values dest_before scored)) in Hd.
  apply in_app_or in Hd. destruct Hd as [Hd|Hd]; [left; exact Hd|].
  right. rewrite Forall_forall in H2. exact (H2 _ Hd).
Qed.

Lemma lower_ascii_idem (c : ascii) : lower_ascii (lower_ascii c) = lower_ascii c.
Proof. destruct c as [[] [] [] [] [] [] [] []]; reflexivity. Qed.

Lemma lower_idem (s : string) : lower (lower s) = lower s.
Proof.
  induction s as [|c s IH]; cbn [lower]; [reflexivity|].
  rewrite lower_ascii_idem, IH. reflexivity.
Qed.

Lemma filter_map_length {A B : Type} (f : A -> B) (p : B -> bool) (l : list A) :
  List.length (filter p (map f l)) = List.length (filter (fun x => p (f x)) l).
Proof.
  induction l as [|x l IH]; cbn; [reflexivity|].
  destruct (p (f x)); cbn; rewrite IH; reflexivity.
Qed.

Lemma score_tags_lower (interests : list string) (row : Destination) :
  score_tags (map lower interests) row = score_tags interests row.
Proof.
  unfold score_tags. rewrite filter_map_length. f_equal. f_equal.
  apply filter_ext. intros i. rewrite lower_idem. reflexivity.
Qed.

(** X3. The search does not depend on the case of the region or of the
    interests. *)
Theorem search_destinations_case (DEST_CSV : list Destination) (r : string)
    (region : option string) (interests : list string) :
  search_destinations DEST_CSV (Some r) interests
  = search_destinations DEST_CSV (Some (lower r)) interests
  /\ search_destinations DEST_CSV region (map lower interests)
     = search_destinations DEST_CSV region interests.
Proof.
  split.
  - rewrite !search_destinations_eq. do 3 f_equal.
    apply filter_ext. intros row. destruct r as [|c r]; [reflexivity|].
    cbn [lower region_matches]. rewrite lower_ascii_idem, lower_idem.
    reflexivity.
  - rewrite !search_destinations_eq. do 2 f_equal.
    apply map_ext. intros row. rewrite score_tags_lower. reflexivity.
Qed.

(* ------------------------------------------------------------------ *)
(** ** [make_options] and [choose_destination] *)

Lemma propose_trip_concepts_destinations (c : Constraints)
    (candidates : list Destination) :
  map c_destination (propose_trip_concepts c candidates) = candidates
  /\ Forall (fun o => c_city o = d_city (c_destination o))
            (propose_trip_concepts c candidates).
Proof.
  unfold propose_trip_concepts. split.
  - rewrite map_map. cbn [c_destination]. apply map_id.
  - apply Forall_forall. intros o Ho. apply in_map_iff in Ho.
    destruct Ho as (d & <- & _). reflexivity.
Qed.

(** X4. The ProposeOptions stage stores one option per destination found, in the
    order of the search, each carrying its destination and that
    destination's city; there are at most four. *)
Theorem make_options_mirror_search (DEST_CSV : list Destination)
    (s : AgentState) (c : Constraints) :
  st_constraints s = Some c ->
  exists (s' : AgentState) (options : list Concept),
    make_options DEST_CSV s = Ok s'
    /\ st_trip_options s' = Some options
    /\ map c_destination options
       = search_destinations DEST_CSV (region c) (interests c)
    /\ Forall (fun o => c_city o = d_city (c_destination o)) options
    /\ (List.length options <= 4)%nat.
Proof.
  intros Hc. unfold make_options. rewrite Hc. cbn [bind subscript].
  eexists. eexists. split; [reflexivity|]. split; [reflexivity|].
  destruct (propose_trip_concepts_destinations c
              (search_destinations DEST_CSV (region c) (interests c))) as [Hd Hcity].
  split; [exact Hd|]. split; [exact Hcity|].
  rewrite <- (length_map c_destination), Hd.
  rewrite search_destinations_eq, length_firstn. lia.
Qed.

Lemma make_options_mirror_search_witness :
  exists (s' : AgentState) (options : list Concept),
    make_options sample_dest_rows sample_state_parsed = Ok s'
    /\ st_trip_options s' = Some options
    /\ map c_destination options
       = search_destinations sample_dest_rows
           (region (sample_constraints 1000)) (interests (sample_constraints 1000))
    /\ Forall (fun o => c_city o = d_city (c_destination o)) options
    /\ (List.length options <= 4)%nat.
Proof.
  apply (make_options_mirror_search sample_dest_rows sample_state_parsed
           (sample_constraints 1000)).
  reflexivity.
Defined.

(** X5. The ChooseDestination stage reads a missing option list as empty; it
    appends to the trace the destination it stores and that destination's
    rough total, which no option undercuts; with no option it stores [None]
    and records an infinite rough total. *)
Theorem choose_destination_trace (s : AgentState) (c : Constraints) :
  st_constraints s = Some c ->
  let options := match st_trip_options s with Some o => o | None => [] end in
  exists (s' : AgentState) (best : option Destination) (total : xfloat),
    choose_destination s = Ok s'
    /\ st_selected_destination s' = Some best
    /\ st_history s' = st_history s ++ [H_choose_destination best total]
    /\ (options = [] -> best = None /\ total = Inf)
    /\ (options <> [] ->
        exists opt,
          In opt options
          /\ best = Some (c_destination opt)
          /\ total = Fin (rough_total c opt)
          /\ forall o, In o options ->
                       (rough_total c opt <= rough_total c o)%Q).
Proof.
  intros Hc options.
  pose proof (scan_invariant_fold c options) as Hinv.
  unfold choose_destination. rewrite Hc. cbn [bind subscript]. fold options.
  destruct (fold_left (choose_step c) options (None, Inf)) as [best total] eqn:E.
  exists (_push (set_selected_destination best s) (H_choose_destination best total)),
    best, total.
  split; [reflexivity|]. split; [reflexivity|]. split; [reflexivity|].
  destruct options as [|x l].
  - cbn in E. injection E as <- <-. split; [auto | congruence].
  - split; [discriminate|]. intros _.
    destruct Hinv as (i & opt & Hi & Hacc & Hmin & _).
    injection Hacc as -> ->.
    exists opt. split; [eapply nth_error_In; exact Hi|].
    split; [reflexivity|]. split; [reflexivity|].
    intros o Ho. apply In_nth_error in Ho. destruct Ho as [j Hj].
    exact (Hmin j o Hj).
Qed.

Lemma choose_destination_trace_witness :
  let options := match st_trip_options sample_state_options with
                 | Some o => o | None => [] end in
  exists (s' : AgentState) (best : option Destination) (total : xfloat),
    choose_destination sample_state_options = Ok s'
    /\ st_selected_destination s' = Some best
    /\ st_history s' = st_history sample_state_options
                       ++ [H_choose_destination best total]
    /\ (options = [] -> best = None /\ total = Inf)
    /\ (options <> [] ->
        exists opt,
          In opt options
          /\ best = Some (c_destination opt)
          /\ total = Fin (rough_total (sample_constraints 1000) opt)
          /\ forall o, In o options ->
                       (rough_total (sample_constraints 1000) opt
                        <= rough_total (sample_constraints 1000) o)%Q).
Proof.
  apply (choose_destination_trace sample_state_options (sample_constraints 1000)).
  reflexivity.
Defined.

(* ------------------------------------------------------------------ *)
(** ** [build_itinerary] *)

Lemma build_itinerary_plan (ATTR_CSV : list Attraction) (city : string)
    (days : Z) (interests : list string) (pace : string) :
  plan (build_itinerary ATTR_CSV city days interests pace)
  = fill_days (ranked_attractions ATTR_CSV city interests) (blocks_per_day pace)
      (range1 days) 0.
Proof.
  unfold build_itinerary, ranked_attractions, city_matches. cbn [plan].
  destruct interests; reflexivity.
Qed.

Lemma skipn_nth_error {A : Type} (l : list A) :
  forall (i : nat) (x : A),
    nth_error l i = Some x -> skipn i l = x :: skipn (S i) l.
Proof.
  induction l as [|y l IH]; intros [|i] x H; cbn in H; try discriminate.
  - injection H as ->. reflexivity.
  - cbn [skipn]. rewrite (IH i x H). reflexivity.
Qed.

(** The inner loop takes the next [blocks] items, or what is left. *)
Lemma fill_day_spec (its : list Attraction) (blocks : nat) :
  forall (idx : nat) (acc : list Attraction),
    fill_day its blocks idx acc
    = (acc ++ firstn blocks (skipn idx its),
       (idx + List.length (firstn blocks (skipn idx its)))%nat).
Proof.
  induction blocks as [|b IH]; intros idx acc; cbn [fill_day firstn].
  - rewrite app_nil_r, Nat.add_0_r. reflexivity.
  - destruct (nth_error its idx) as [it|] eqn:E.
    + rewrite IH, (skipn_nth_error its idx it E). cbn [firstn List.length].
      rewrite <- app_assoc. cbn [app]. f_equal. lia.
    + apply nth_error_None in E. rewrite (skipn_all2 its E).
      cbn. rewrite app_nil_r, Nat.add_0_r. reflexivity.
Qed.

Lemma skipn_after_block {A : Type} (l : list A) (idx b : nat) :
  skipn (idx + List.length (firstn b (skipn idx l))) l = skipn b (skipn idx l).
Proof.
  rewrite length_firstn, length_skipn, skipn_skipn.
  destruct (Nat.le_gt_cases b (List.length l - idx)) as [H|H].
  - f_equal. lia.
  - rewrite !skipn_all2 by lia. reflexivity.
Qed.

(** Day [k] (from 0) of the outer loop gets the [k]-th block of the items. *)
Lemma fill_days_nth (its : list Attraction) (blocks : nat) (ds : list Z) :
  forall (idx j : nat),
    skipn idx its = skipn j its ->
    forall (k : nat) (d : Day),
      nth_error (fill_days its blocks ds idx) k = Some d ->
      items d = firstn blocks (skipn (j + k * blocks) its)
      /\ nth_error ds k = Some (day d).
Proof.
  induction ds as [|d0 ds IH]; intros idx j Heq k d Hk; cbn [fill_days] in Hk.
  - destruct k; discriminate.
  - rewrite fill_day_spec in Hk. cbn [app] in Hk.
    destruct k as [|k]; cbn [nth_error] in Hk.
    + injection Hk as <-. cbn [items day]. rewrite Heq, Nat.add_0_r.
      split; reflexivity.
    + cbn [nth_error].
      assert (Hnext : skipn (idx + List.length (firstn blocks (skipn idx its))) its
                      = skipn (j + blocks) its).
      { rewrite skipn_after_block, Heq, skipn_skipn. f_equal. lia. }
      destruct (IH _ _ Hnext k d Hk) as [Hit Hd].
      split; [|exact Hd]. rewrite Hit. do 2 f_equal. lia.
Qed.

Lemma firstn_plus {A : Type} (a c : nat) (l : list A) :
  firstn (a + c) l = firstn a l ++ firstn c (skipn a l).
Proof.
  revert l. induction a as [|a IH]; intros l; [reflexivity|].
  destruct l as [|x l]; cbn [Nat.add firstn skipn app].
  - rewrite firstn_nil. reflexivity.
  - rewrite IH. reflexivity.
Qed.

Lemma fill_days_all_items (its : list Attraction) (blocks : nat) (ds : list Z) :
  forall (idx j : nat),
    skipn idx its = skipn j its ->
    all_items (fill_days its blocks ds idx)
    = firstn (blocks * List.length ds) (skipn j its).
Proof.
  induction ds as [|d0 ds IH]; intros idx j Heq; cbn [fill_days].
  - rewrite Nat.mul_0_r. reflexivity.
  - rewrite fill_day_spec. cbn [app]. unfold all_items. cbn [flat_map items].
    fold (all_items (fill_days its blocks ds
                       (idx + List.length (firstn blocks (skipn idx its))))).
    assert (Hnext : skipn (idx + List.length (firstn blocks (skipn idx its))) its
                    = skipn (j + blocks) its).
    { rewrite skipn_after_block, Heq, skipn_skipn. f_equal. lia. }
    rewrite (IH _ _ Hnext), Heq.
    cbn [List.length]. replace (blocks * S (List.length ds))%nat
      with (blocks + blocks * List.length ds)%nat by lia.
    rewrite firstn_plus, skipn_skipn. do 3 f_equal. lia.
Qed.

Lemma blocks_per_day_bounds (pace : string) :
  (2 <= blocks_per_day pace <= 4)%nat.
Proof.
  unfold blocks_per_day.
  destruct (String.eqb pace "slow"); [lia|].
  destruct (String.eqb pace "medium"); [lia|].
  destruct (String.eqb pace "fast"); lia.
Qed.

Lemma build_itinerary_all_items (ATTR_CSV : list Attraction) (city : string)
    (days : Z) (interests : list string) (pace : string) :
  all_items (plan (build_itinerary ATTR_CSV city days interests pace))
  = firstn (blocks_per_day pace * Z.to_nat days)
      (ranked_attractions ATTR_CSV city interests).
Proof.
  rewrite build_itinerary_plan.
  rewrite (fill_days_all_items _ _ _ 0%nat 0%nat eq_refl), range1_length.
  reflexivity.
Qed.

(** X6. [build_itinerary] deals the ranked attractions of the city to the days
    in blocks: day [k + 1] gets the [k]-th block of [blocks_per_day] items
    (fewer, or none, when the list runs out), so no day has more than its
    capacity of 2 to 4 items and, day after day, the items of the plan are
    the first [blocks_per_day x days] ranked attractions, each once. *)
Theorem build_itinerary_blocks (ATTR_CSV : list Attraction) (city : string)
    (days : Z) (interests : list string) (pace : string) :
  let it := build_itinerary ATTR_CSV city days interests pace in
  let ranked := ranked_attractions ATTR_CSV city interests in
  let b := blocks_per_day pace in
  (2 <= b <= 4)%nat
  /\ (forall (k : nat) (d : Day),
        nth_error (plan it) k = Some d ->
        day d = Z.of_nat k + 1
        /\ items d = firstn b (skipn (k * b) ranked)
        /\ (List.length (items d) <= b)%nat)
  /\ all_items (plan it) = firstn (b * Z.to_nat days) ranked.
Proof.
  cbv zeta. rewrite build_itinerary_plan.
  split; [apply blocks_per_day_bounds|]. split.
  - intros k d Hk.
    destruct (fill_days_nth _ _ _ 0%nat 0%nat eq_refl k d Hk) as [Hit Hd].
    cbn [Nat.add] in Hit. split; [|split; [exact Hit|]].
    + unfold range1 in Hd. rewrite nth_error_map in Hd.
      destruct (nth_error (seq 0 (Z.to_nat days)) k) as [n|] eqn:E; [|discriminate].
      injection Hd as <-.
      assert (Hn : nth (k) (seq 0 (Z.to_nat days)) 0%nat = n)
        by (apply nth_error_nth; exact E).
      assert (Hlt : (k < List.length (seq 0 (Z.to_nat days)))%nat)
        by (apply nth_error_Some; congruence).
      rewrite length_seq in Hlt. rewrite seq_nth in Hn by exact Hlt. lia.
    + rewrite Hit, length_firstn. lia.
  - rewrite (fill_days_all_items _ _ _ 0%nat 0%nat eq_refl), range1_length.
    reflexivity.
Qed.

Lemma sorted_weaken {A : Type} (R S : A -> A -> Prop) (l : list A) :
  (forall x y, R x y -> S x y) -> StronglySorted R l -> StronglySorted S l.
Proof.
  intros HRS. induction 1 as [|x l Hs IH Hx]; constructor; [exact IH|].
  eapply Forall_impl; [|exact Hx]. intros y. apply HRS.
Qed.

Lemma attr_before_match_cost_total (x y : Attraction) :
  attr_before_match_cost x y = false -> attr_before_match_cost y x = true.
Proof. unfold attr_before_match_cost. apply lex_before_total. Qed.

Lemma attr_before_match_cost_trans (x y z : Attraction) :
  attr_before_match_cost x y = true -> attr_before_match_cost y z = true ->
  attr_before_match_cost x z = true.
Proof.
  unfold attr_before_match_cost. intros H1 H2.
  exact (lex_before_trans _ _ _ _ _ _ H1 H2).
Qed.

Lemma attr_before_cost_total (x y : Attraction) :
  attr_before_cost x y = false -> attr_before_cost y x = true.
Proof.
  unfold attr_before_cost. intros H. apply Qle_bool_iff.
  apply Qlt_le_weak. apply Qnot_le_lt. intros Hle.
  apply Qle_bool_iff in Hle. congruence.
Qed.

Lemma attr_before_cost_trans (x y z : Attraction) :
  attr_before_cost x y = true -> attr_before_cost y z = true ->
  attr_before_cost x z = true.
Proof.
  unfold attr_before_cost. rewrite !Qle_bool_iff. apply Qle_trans.
Qed.

(** X7. The attractions of an itinerary, day after day: each is a row of the
    catalog for the city (with the match flag when interests are given),
    they are as many as the capacity of the days allows, and they are in
    rank order: by cost ascending without interests, by match descending and
    then cost ascending with interests. *)
Theorem build_itinerary_ranked (ATTR_CSV : list Attraction) (city : string)
    (days : Z) (interests : list string) (pace : string) :
  let its := all_items (plan (build_itinerary ATTR_CSV city days interests pace)) in
  let rows := filter (city_matches city) ATTR_CSV in
  let matched (row : Attraction) :=
    set_match (if existsb (fun i => contains (lower i) (lower (a_tag row))) interests
               then 1 else 0) row in
  Forall (fun a => exists row,
                     In row ATTR_CSV /\ city_matches city row = true
                     /\ a = match interests with [] => row | _ => matched row end)
         its
  /\ List.length its
     = Nat.min (blocks_per_day pace * Z.to_nat days) (List.length rows)
  /\ match interests with
     | [] => StronglySorted (fun x y => (cost_est x <= cost_est y)%Q) its
     | _ => StronglySorted (fun x y => attr_before_match_cost x y = true) its
     end.
Proof.
  cbv zeta.
  rewrite build_itinerary_all_items.
  set (n := (blocks_per_day pace * Z.to_nat days)%nat).
  unfold ranked_attractions. destruct interests as [|i l].
  - set (rows := filter (city_matches city) ATTR_CSV).
    pose proof (sort_values_perm attr_before_cost rows) as Hperm.
    split; [|split].
    + apply Forall_forall. intros a Ha. apply in_firstn in Ha.
      apply (Permutation_in _ Hperm) in Ha. unfold rows in Ha.
      apply filter_In in Ha. exists a. tauto.
    + rewrite length_firstn, (Permutation_length Hperm). reflexivity.
    + pose proof (sort_values_sorted attr_before_cost attr_before_cost_total
                    attr_before_cost_trans rows) as Hs.
      destruct (firstn_sorted _ n _ Hs) as [H1 _].
      eapply sorted_weaken; [|exact H1].
      intros x y Hxy. apply Qle_bool_iff. exact Hxy.
  - set (rows := filter (city_matches city) ATTR_CSV).
    set (f := fun row => set_match _ row).
    pose proof (sort_values_perm attr_before_match_cost (map f rows)) as Hperm.
    split; [|split].
    + apply Forall_forall. intros a Ha. apply in_firstn in Ha.
      apply (Permutation_in _ Hperm) in Ha. apply in_map_iff in Ha.
      destruct Ha as (row & <- & Hrow). unfold rows in Hrow.
      apply filter_In in Hrow. exists row. tauto.
    + rewrite length_firstn, (Permutation_length Hperm), length_map. reflexivity.
    + pose proof (sort_values_sorted attr_before_match_cost
                    attr_before_match_cost_total attr_before_match_cost_trans
                    (map f rows)) as Hs.
      destruct (firstn_sorted _ n _ Hs) as [H1 _]. exact H1.
Qed.

Lemma existsb_lower_interests (t : string) (l : list string) :
  existsb (fun i => contains (lower i) t) (map lower l)
  = existsb (fun i => contains (lower i) t) l.
Proof.
  induction l as [|x l IH]; cbn [map existsb]; [reflexivity|].
  rewrite lower_idem, IH. reflexivity.
Qed.

(** X8. The itinerary does not depend on the case of the city name or of the
    interests (the city is only copied into the result). *)
Theorem build_itinerary_case (ATTR_CSV : list Attraction) (city : string)
    (days : Z) (interests : list string) (pace : string) :
  plan (build_itinerary ATTR_CSV (lower city) days interests pace)
  = plan (build_itinerary ATTR_CSV city days interests pace)
  /\ build_itinerary ATTR_CSV city days (map lower interests) pace
     = build_itinerary ATTR_CSV city days interests pace.
Proof.
  split.
  - rewrite !build_itinerary_plan. f_equal.
    unfold ranked_attractions.
    assert (E : filter (city_matches (lower city)) ATTR_CSV
                = filter (city_matches city) ATTR_CSV).
    { apply filter_ext. intros row. unfold city_matches.
      rewrite lower_idem. reflexivity. }
    rewrite E. reflexivity.
  - unfold build_itinerary. f_equal. f_equal.
    destruct interests as [|i l]; [reflexivity|].
    cbn [map]. f_equal. apply map_ext. intros row. f_equal.
    change (lower i :: map lower l) with (map lower (i :: l)).
    rewrite existsb_lower_interests. reflexivity.
Qed.

(* ------------------------------------------------------------------ *)
(** ** [estimate_budget] and [estimate_activity_cost] *)

Lemma round2_nonneg (x : Q) : (0 <= x)%Q -> (0 <= round2 x)%Q.
Proof.
  intros H. apply (Qle_trans _ (round2 0)); [rewrite round2_zero; apply Qle_refl|].
  apply round2_mono. exact H.
Qed.

Lemma round2_nonpos (x : Q) : (x <= 0)%Q -> (round2 x <= 0)%Q.
Proof.
  intros H. apply (Qle_trans _ (round2 0)); [|rewrite round2_zero; apply Qle_refl].
  apply round2_mono. exact H.
Qed.

Lemma float_nonneg (n : Z) : 0 <= n -> (0 <= float n)%Q.
Proof. intros H. unfold float. rewrite Zle_Qle in H. exact H. Qed.

(** X9. With non-negative rates, a non-negative flight estimate and no negative
    count, the food, transport and flight amounts are non-negative; with at
    least one day so are the lodging and the total, and no component exceeds
    the total; with zero days the lodging is not positive: it is the
    rounding of minus one night. *)
Theorem estimate_budget_signs (d : Destination) (days travelers : Z) (f : Q) :
  (0 <= avg_lodging_per_night d)%Q ->
  (0 <= avg_food_per_day d)%Q ->
  (0 <= avg_local_transport_per_day d)%Q ->
  (0 <= f)%Q ->
  0 <= days ->
  0 <= travelers ->
  let b := estimate_budget d days travelers f in
  (0 <= b_food b)%Q /\ (0 <= b_local_transport b)%Q /\ (0 <= b_flights_est b)%Q
  /\ (1 <= days ->
      (0 <= b_lodging b)%Q /\ (0 <= b_total_est b)%Q
      /\ (b_lodging b <= b_total_est b)%Q /\ (b_food b <= b_total_est b)%Q
      /\ (b_local_transport b <= b_total_est b)%Q
      /\ (b_flights_est b <= b_total_est b)%Q)
  /\ (days = 0 ->
      b_lodging b = round2 (- avg_lodging_per_night d) /\ (b_lodging b <= 0)%Q).
Proof.
  intros Hl Hf Ht Hfl Hd Htr b.
  pose proof (float_nonneg days Hd) as Hdq.
  pose proof (float_nonneg travelers Htr) as Htq.
  assert (Hfood : (0 <= avg_food_per_day d * float days * float travelers)%Q)
    by (repeat apply Qmult_le_0_compat; assumption).
  assert (Hloc : (0 <= avg_local_transport_per_day d * float days * float travelers)%Q)
    by (repeat apply Qmult_le_0_compat; assumption).
  assert (Hfli : (0 <= f * float travelers)%Q)
    by (apply Qmult_le_0_compat; assumption).
  unfold b, estimate_budget.
  cbn [b_lodging b_food b_local_transport b_flights_est b_total_est].
  split; [apply round2_nonneg; exact Hfood|].
  split; [apply round2_nonneg; exact Hloc|].
  split; [apply round2_nonneg; exact Hfli|]. split.
  - intros H1.
    assert (Hlod : (0 <= avg_lodging_per_night d * float (days - 1))%Q).
    { apply Qmult_le_0_compat; [exact Hl|]. apply float_nonneg. lia. }
    split; [apply round2_nonneg; exact Hlod|].
    split; [apply round2_nonneg; lra|].
    repeat split; apply round2_mono; lra.
  - intros ->. split.
    + apply round2_comp. change (float (0 - 1)) with (-1)%Q. ring.
    + apply round2_nonpos. change (float (0 - 1)) with (-1)%Q. lra.
Qed.

Lemma estimate_budget_signs_witness :
  let b := estimate_budget sample_destination 3 2 450 in
  (0 <= b_food b)%Q /\ (0 <= b_local_transport b)%Q /\ (0 <= b_flights_est b)%Q
  /\ (1 <= 3 ->
      (0 <= b_lodging b)%Q /\ (0 <= b_total_est b)%Q
      /\ (b_lodging b <= b_total_est b)%Q /\ (b_food b <= b_total_est b)%Q
      /\ (b_local_transport b <= b_total_est b)%Q
      /\ (b_flights_est b <= b_total_est b)%Q)
  /\ (3 = 0 ->
      b_lodging b = round2 (- avg_lodging_per_night sample_destination)
      /\ (b_lodging b <= 0)%Q).
Proof.
  apply (estimate_budget_signs sample_destination 3 2 450);
    try discriminate; lia.
Defined.

Lemma add_costs_sum (its : list Attraction) :
  forall t : Q, (add_costs t its == t + Qsum (map cost_est its))%Q.
Proof.
  unfold add_costs.
  induction its as [|it rest IH]; intros t; cbn [fold_left map Qsum fold_right].
  - ring.
  - rewrite IH. unfold Qsum. ring.
Qed.

Lemma Qsum_app (l1 l2 : list Q) : (Qsum (l1 ++ l2) == Qsum l1 + Qsum l2)%Q.
Proof.
  unfold Qsum. induction l1 as [|x l1 IH]; cbn [app fold_right].
  - ring.
  - rewrite IH. ring.
Qed.

Lemma add_day_costs_sum (ds : list Day) :
  forall t : Q,
    (add_day_costs t ds == t + Qsum (map cost_est (all_items ds)))%Q.
Proof.
  unfold add_day_costs.
  induction ds as [|d ds IH]; intros t; cbn [fold_left].
  - cbn. ring.
  - rewrite IH, add_costs_sum. unfold all_items. cbn [flat_map].
    rewrite map_app, Qsum_app. ring.
Qed.

(** X10. The activity cost is the rounded sum of the costs of all the items, so
    it is the same for two itineraries that hold the same items, however
    these are spread over the days, and it is zero for an itinerary without
    items. *)
Theorem activity_cost_is_rounded_sum (it : Itinerary) :
  estimate_activity_cost it = round2 (Qsum (map cost_est (all_items (plan it))))
  /\ (forall it' : Itinerary,
        all_items (plan it') = all_items (plan it) ->
        estimate_activity_cost it' = estimate_activity_cost it)
  /\ (all_items (plan it) = [] -> (estimate_activity_cost it == 0)%Q).
Proof.
  assert (H : forall i, estimate_activity_cost i
                        = round2 (Qsum (map cost_est (all_items (plan i))))).
  { intros i. unfold estimate_activity_cost. apply round2_comp.
    rewrite add_day_costs_sum. ring. }
  split; [apply H|]. split.
  - intros it' E. rewrite !H, E. reflexivity.
  - intros E. rewrite H, E. reflexivity.
Qed.

(* ------------------------------------------------------------------ *)
(** ** [adjust_itinerary_for_budget], further *)

(** When the cap leaves room for all the paid items of a day, the day is
    kept as it is. *)
Lemma adjust_items_all (N : Z) (its : list Attraction) :
  forall k : Z,
    (List.length (filter is_paid its) <= Z.to_nat (N - k))%nat ->
    adjust_items N its k []
    = (its, k + Z.of_nat (List.length (filter is_paid its))).
Proof.
  induction its as [|it rest IH]; intros k Hroom; cbn [adjust_items].
  - cbn. f_equal. lia.
  - unfold is_paid, is_free in *. cbn [filter] in Hroom |- *.
    destruct (Qle_bool (cost_est it) 0) eqn:Hfree; cbn [negb] in Hroom |- *.
    + rewrite adjust_items_acc, (IH k Hroom). reflexivity.
    + cbn [List.length] in Hroom |- *.
      assert (Hlt : (k <? N) = true) by (apply Z.ltb_lt; lia).
      rewrite Hlt, adjust_items_acc, (IH (k + 1)) by lia.
      cbn [fst snd app]. f_equal. lia.
Qed.

Lemma adjust_days_all (N : Z) (ds : list Day) :
  forall k : Z,
    (List.length (filter is_paid (all_items ds)) <= Z.to_nat (N - k))%nat ->
    adjust_days N ds k = ds.
Proof.
  induction ds as [|d ds IH]; intros k Hroom; cbn [adjust_days].
  - reflexivity.
  - rewrite filter_flat_map_items, length_app in Hroom.
    rewrite adjust_items_all by lia.
    rewrite IH by lia. destruct d; reflexivity.
Qed.

(** With a cap of zero or less, a day keeps its free items only. *)
Lemma adjust_items_none (N : Z) (its : list Attraction) :
  forall k : Z, N <= k -> adjust_items N its k [] = (filter is_free its, k).
Proof.
  induction its as [|it rest IH]; intros k Hk; cbn [adjust_items filter].
  - reflexivity.
  - unfold is_free in *. destruct (Qle_bool (cost_est it) 0).
    + rewrite adjust_items_acc, (IH k Hk). reflexivity.
    + assert (Hlt : (k <? N) = false) by (apply Z.ltb_ge; lia).
      rewrite Hlt. apply IH. exact Hk.
Qed.

Lemma adjust_days_none (N : Z) (ds : list Day) :
  forall k : Z,
    N <= k ->
    adjust_days N ds k = map (fun d => mkDay (day d) (filter is_free (items d))) ds.
Proof.
  induction ds as [|d ds IH]; intros k Hk; cbn [adjust_days map].
  - reflexivity.
  - rewrite adjust_items_none by exact Hk. rewrite IH by exact Hk. reflexivity.
Qed.

(** X11. The adjustment changes nothing when the itinerary has no more paid items
    than the cap, and for every cap a second adjustment with the same cap
    changes nothing. *)
Theorem adjust_itinerary_idempotent (it : Itinerary) (N : Z) :
  ((List.length (filter is_paid (all_items (plan it))) <= Z.to_nat N)%nat ->
   adjust_itinerary_for_budget it N = it)
  /\ adjust_itinerary_for_budget (adjust_itinerary_for_budget it N) N
     = adjust_itinerary_for_budget it N.
Proof.
  assert (Hid : forall i : Itinerary,
             (List.length (filter is_paid (all_items (plan i))) <= Z.to_nat N)%nat ->
             adjust_itinerary_for_budget i N = i).
  { intros i Hroom. unfold adjust_itinerary_for_budget.
    rewrite adjust_days_all by (rewrite Z.sub_0_r; exact Hroom).
    destruct i; reflexivity. }
  split; [apply Hid|].
  apply Hid.
  destruct (adjust_itinerary_spec it N) as [_ HP].
  rewrite HP. apply firstn_le_length.
Qed.

(** X12. With a cap of zero or less the adjustment keeps exactly the free items
    of every day. *)
Theorem adjust_itinerary_no_paid (it : Itinerary) (N : Z) :
  N <= 0 ->
  plan (adjust_itinerary_for_budget it N)
  = map (fun d => mkDay (day d) (filter is_free (items d))) (plan it).
Proof.
  intros HN. unfold adjust_itinerary_for_budget. cbn [plan].
  apply adjust_days_none. exact HN.
Qed.

Lemma adjust_itinerary_no_paid_witness :
  0 <= 0
  /\ plan (adjust_itinerary_for_budget sample_itinerary 0)
     = map (fun d => mkDay (day d) (filter is_free (items d)))
           (plan sample_itinerary).
Proof.
  split; [lia|]. apply (adjust_itinerary_no_paid sample_itinerary 0). lia.
Defined.

Lemma free_items_kept (ds ds' : list Day) :
  Forall2 (fun d d' => day d' = day d
                       /\ subseq (items d') (items d)
                       /\ filter is_free (items d') = filter is_free (items d))
          ds ds' ->
  filter is_free (all_items ds') = filter is_free (all_items ds).
Proof.
  induction 1 as [|d d' ds ds' (_ & _ & Hd) _ IH].
  - reflexivity.
  - rewrite !filter_flat_map_items, Hd, IH. reflexivity.
Qed.

(** X13. In the over-budget branch the ValidateAdjust stage never removes a free
    item and never removes every paid item: the paid items left are the
    first one, two or three paid items of the itinerary it was given. *)
Theorem validate_and_adjust_paid_left (s : AgentState) (c : Constraints)
    (b : Budget) (it : Itinerary) :
  st_constraints s = Some c ->
  st_budget s = Some b ->
  st_itinerary s = Some it ->
  within_budget b = false ->
  exists (s' : AgentState) (it' : Itinerary) (cap : nat),
    validate_and_adjust s = Ok s'
    /\ st_itinerary s' = Some it'
    /\ (1 <= cap <= 3)%nat
    /\ filter is_paid (all_items (plan it'))
       = firstn cap (filter is_paid (all_items (plan it)))
    /\ filter is_free (all_items (plan it'))
       = filter is_free (all_items (plan it))
    /\ (List.length (filter is_paid (all_items (plan it'))) <= 3)%nat
    /\ (filter is_paid (all_items (plan it)) <> [] ->
        filter is_paid (all_items (plan it')) <> []).
Proof.
  intros Hc Hb Hi Hw.
  pose proof (validate_and_adjust_over s c b it Hc Hb Hi Hw) as Hv.
  cbv zeta in Hv.
  set (cap := if negb (Qle_bool (grand_total_est b - float (budget c)) 500) then 1
              else if negb (Qle_bool (grand_total_est b - float (budget c)) 250)
                   then 2 else 3) in Hv.
  assert (Hcap : 1 <= cap <= 3).
  { unfold cap. destruct (negb _); [lia|]. destruct (negb _); lia. }
  destruct (adjust_itinerary_spec it cap) as [HF HP].
  eexists. exists (adjust_itinerary_for_budget it cap), (Z.to_nat cap).
  split; [exact Hv|]. split; [reflexivity|]. split; [lia|].
  split; [exact HP|]. split; [exact (free_items_kept _ _ HF)|]. split.
  - rewrite HP, length_firstn. lia.
  - rewrite HP. destruct (filter is_paid (all_items (plan it))) as [|x l];
      [congruence|].
    intros _. replace (Z.to_nat cap) with (S (Z.to_nat cap - 1)) by lia.
    discriminate.
Qed.

Lemma validate_and_adjust_paid_left_witness :
  exists (s' : AgentState) (it' : Itinerary) (cap : nat),
    validate_and_adjust (sample_state_over 1000) = Ok s'
    /\ st_itinerary s' = Some it'
    /\ (1 <= cap <= 3)%nat
    /\ filter is_paid (all_items (plan it'))
       = firstn cap (filter is_paid (all_items (plan sample_itinerary)))
    /\ filter is_free (all_items (plan it'))
       = filter is_free (all_items (plan sample_itinerary))
    /\ (List.length (filter is_paid (all_items (plan it'))) <= 3)%nat
    /\ (filter is_paid (all_items (plan sample_itinerary)) <> [] ->
        filter is_paid (all_items (plan it')) <> []).
Proof.
  apply (validate_and_adjust_paid_left (sample_state_over 1000)
           (sample_constraints 1000) sample_budget sample_itinerary);
    reflexivity.
Defined.

(* ------------------------------------------------------------------ *)
(** ** The nodes of the graph: trace, frame and errors *)

(** Case analysis on the dictionary reads of a node that returned. *)
Ltac node_returned H :=
  repeat (cbn [bind subscript not_none] in H;
          match type of H with
          | context [subscript _ ?x] => destruct x eqn:?; cbn [bind subscript] in H
          | context [not_none ?x] => destruct x eqn:?; cbn [bind not_none] in H
          | context [if ?b then _ else _] => destruct b eqn:?
          | context [let '(_, _) := ?p in _] => destruct p eqn:?
          | Raise _ = Ok _ => discriminate H
          end);
  try discriminate H; try (injection H as <-).

Ltac graph_node Hin :=
  cbn in Hin;
  repeat (destruct Hin as [Hin|Hin]; [injection Hin as <- <-|]);
  [ .. | contradiction].

Ltac one_entry :=
  split;
  [ cbn [st_history _push set_constraints set_trip_options
         set_selected_destination set_itinerary set_budget set_checklist
         set_final_plan set_history];
    rewrite map_app, ?share_preview_nodes; reflexivity
  | intros Hname; try congruence; eexists; split; reflexivity ].

(** X14. Every node that returns has appended exactly one entry to the
    trace, under its own name, after entries with the same nodes as before;
    every node but ValidateAdjust leaves the earlier entries as they were
    (ValidateAdjust, when it trims, rewrites in place the days that the
    BuildItinerary entry shares with the itinerary). *)
Theorem node_appends_one_entry (DEST_CSV : list Destination)
    (ATTR_CSV : list Attraction) (name : string)
    (f : AgentState -> result AgentState) (s s' : AgentState) :
  In (name, f) (build_graph DEST_CSV ATTR_CSV) ->
  f s = Ok s' ->
  map node (st_history s') = map node (st_history s) ++ [name]
  /\ (name <> "validate_adjust"%string ->
      exists e : HistoryEntry,
        st_history s' = st_history s ++ [e] /\ node e = name).
Proof.
  intros Hin Hf. graph_node Hin.
  - unfold parse_request in Hf. node_returned Hf; one_entry.
  - unfold make_options in Hf. node_returned Hf; one_entry.
  - unfold choose_destination in Hf. node_returned Hf; one_entry.
  - unfold build_plan in Hf. node_returned Hf; one_entry.
  - unfold compute_budget in Hf. node_returned Hf; one_entry.
  - unfold validate_and_adjust in Hf. node_returned Hf; one_entry.
  - unfold finalize in Hf. node_returned Hf; one_entry.
Qed.

Lemma node_appends_one_entry_witness :
  let s' := _push (set_trip_options
                     (propose_trip_concepts (sample_constraints 1000)
                        (search_destinations sample_dest_rows
                           (Some "europe"%string) ["food"; "museums"]%string))
                     sample_state_parsed)
                  (H_propose_options
                     (propose_trip_concepts (sample_constraints 1000)
                        (search_destinations sample_dest_rows
                           (Some "europe"%string) ["food"; "museums"]%string))) in
  map node (st_history s')
  = map node (st_history sample_state_parsed) ++ ["propose_options"%string]
  /\ ("propose_options"%string <> "validate_adjust"%string ->
      exists e : HistoryEntry,
        st_history s' = st_history sample_state_parsed ++ [e]
        /\ node e = "propose_options"%string).
Proof.
  apply (node_appends_one_entry sample_dest_rows sample_attr_rows
           "propose_options" (make_options sample_dest_rows) sample_state_parsed).
  - cbn. auto.
  - reflexivity.
Defined.

Ltac kept_fields Hlater :=
  repeat split; intros;
  cbn [st_user_request st_constraints st_trip_options st_selected_destination
       _push set_constraints set_trip_options set_selected_destination
       set_itinerary set_budget set_checklist set_final_plan set_history];
  try congruence;
  match goal with
  | H : In _ _ |- _ => destruct (Hlater _ H) as (? & ? & ?); congruence
  end.

(** X15. No node changes the request, and once the constraints are stored no
    later node changes them; the nodes after ChooseDestination keep the
    options and the selected destination. *)
Theorem node_keeps_inputs (DEST_CSV : list Destination)
    (ATTR_CSV : list Attraction) (name : string)
    (f : AgentState -> result AgentState) (s s' : AgentState) :
  In (name, f) (build_graph DEST_CSV ATTR_CSV) ->
  f s = Ok s' ->
  st_user_request s' = st_user_request s
  /\ (name <> "parse_request"%string -> st_constraints s' = st_constraints s)
  /\ (In name ["build_itinerary"; "estimate_budget"; "validate_adjust";
               "finalize"]%string ->
      st_trip_options s' = st_trip_options s
      /\ st_selected_destination s' = st_selected_destination s).
Proof.
  intros Hin Hf.
  assert (Hlater : forall n : string,
             In n ["build_itinerary"; "estimate_budget"; "validate_adjust";
                   "finalize"]%string ->
             n <> "parse_request"%string /\ n <> "propose_options"%string
             /\ n <> "choose_destination"%string).
  { intros n H. cbn in H.
    repeat (destruct H as [H|H]; [subst n; repeat split; discriminate|]).
    contradiction. }
  graph_node Hin.
  - unfold parse_request in Hf. node_returned Hf; kept_fields Hlater.
  - unfold make_options in Hf. node_returned Hf; kept_fields Hlater.
  - unfold choose_destination in Hf. node_returned Hf; kept_fields Hlater.
  - unfold build_plan in Hf. node_returned Hf; kept_fields Hlater.
  - unfold compute_budget in Hf. node_returned Hf; kept_fields Hlater.
  - unfold validate_and_adjust in Hf. node_returned Hf; kept_fields Hlater.
  - unfold finalize in Hf. node_returned Hf; kept_fields Hlater.
Qed.

Lemma node_keeps_inputs_witness :
  let s' := _push (set_budget sample_budget (sample_state 1000))
                  (H_estimate_budget sample_budget) in
  st_user_request s' = st_user_request (sample_state 1000)
  /\ ("estimate_budget"%string <> "parse_request"%string ->
      st_constraints s' = st_constraints (sample_state 1000))
  /\ (In "estimate_budget"%string
         ["build_itinerary"; "estimate_budget"; "validate_adjust";
          "finalize"]%string ->
      st_trip_options s' = st_trip_options (sample_state 1000)
      /\ st_selected_destination s'
         = st_selected_destination (sample_state 1000)).
Proof.
  apply (node_keeps_inputs sample_dest_rows sample_attr_rows "estimate_budget"
           compute_budget (sample_state 1000)).
  - cbn. auto 10.
  - reflexivity.
Defined.

(** X16. Every node but the first raises [KeyError] on the key [constraints]
    when the state has no constraints, whatever else it holds. *)
Theorem node_needs_constraints (DEST_CSV : list Destination)
    (ATTR_CSV : list Attraction) (name : string)
    (f : AgentState -> result AgentState) (s : AgentState) :
  In (name, f) (build_graph DEST_CSV ATTR_CSV) ->
  name <> "parse_request"%string ->
  st_constraints s = None ->
  f s = Raise (KeyError "constraints").
Proof.
  intros Hin Hname Hc. graph_node Hin.
  - congruence.
  - unfold make_options. rewrite Hc. reflexivity.
  - unfold choose_destination. rewrite Hc. reflexivity.
  - unfold build_plan. rewrite Hc. reflexivity.
  - unfold compute_budget. rewrite Hc. reflexivity.
  - unfold validate_and_adjust. rewrite Hc. reflexivity.
  - unfold finalize. rewrite Hc. reflexivity.
Qed.

Lemma node_needs_constraints_witness :
  finalize (initial_state "a trip") = Raise (KeyError "constraints").
Proof.
  apply (node_needs_constraints sample_dest_rows sample_attr_rows "finalize"
           finalize (initial_state "a trip")).
  - cbn. auto 10.
  - discriminate.
  - reflexivity.
Defined.

(** X17. With constraints stored, the three nodes that read the selected
    destination raise [KeyError] when the key is missing; when it holds
    [None], BuildItinerary and EstimateBudget raise [TypeError], and so does
    Finalize once the budget and the itinerary are there (it reads them
    first). *)
Theorem node_needs_destination (ATTR_CSV : list Attraction) (s : AgentState)
    (c : Constraints) :
  st_constraints s = Some c ->
  (st_selected_destination s = None ->
   build_plan ATTR_CSV s = Raise (KeyError "selected_destination")
   /\ compute_budget s = Raise (KeyError "selected_destination")
   /\ finalize s = Raise (KeyError "selected_destination"))
  /\ (st_selected_destination s = Some None ->
      build_plan ATTR_CSV s
      = Raise (TypeError "'NoneType' object is not subscriptable")
      /\ compute_budget s
         = Raise (TypeError "'NoneType' object is not subscriptable")
      /\ (st_budget s = None -> finalize s = Raise (KeyError "budget"))
      /\ (st_budget s <> None -> st_itinerary s = None ->
          finalize s = Raise (KeyError "itinerary"))
      /\ (st_budget s <> None -> st_itinerary s <> None ->
          finalize s
          = Raise (TypeError "'NoneType' object is not subscriptable"))).
Proof.
  intros Hc. split; intros Hd.
  - unfold build_plan, compute_budget, finalize. rewrite Hc, Hd.
    repeat split; reflexivity.
  - unfold build_plan, compute_budget, finalize. rewrite Hc, Hd.
    cbn [bind subscript not_none].
    split; [reflexivity|]. split; [reflexivity|].
    destruct (st_budget s) as [b|]; destruct (st_itinerary s) as [i|];
      cbn [bind subscript not_none]; repeat split; intros; congruence.
Qed.

Lemma node_needs_destination_witness :
  (st_selected_destination sample_state_parsed = None ->
   build_plan sample_attr_rows sample_state_parsed
   = Raise (KeyError "selected_destination")
   /\ compute_budget sample_state_parsed = Raise (KeyError "selected_destination")
   /\ finalize sample_state_parsed = Raise (KeyError "selected_destination"))
  /\ (st_selected_destination sample_state_parsed = Some None ->
      build_plan sample_attr_rows sample_state_parsed
      = Raise (TypeError "'NoneType' object is not subscriptable")
      /\ compute_budget sample_state_parsed
         = Raise (TypeError "'NoneType' object is not subscriptable")
      /\ (st_budget sample_state_parsed = None ->
          finalize sample_state_parsed = Raise (KeyError "budget"))
      /\ (st_budget sample_state_parsed <> None ->
          st_itinerary sample_state_parsed = None ->
          finalize sample_state_parsed = Raise (KeyError "itinerary"))
      /\ (st_budget sample_state_parsed <> None ->
          st_itinerary sample_state_parsed <> None ->
          finalize sample_state_parsed
          = Raise (TypeError "'NoneType' object is not subscriptable"))).
Proof.
  apply (node_needs_destination sample_attr_rows sample_state_parsed
           (sample_constraints 1000)).
  reflexivity.
Defined.

(* ------------------------------------------------------------------ *)
(** ** Whole runs, further *)

(** X18. A run can only abort in the BuildItinerary node, on the subscript of
    [None], and only when the search returned no destination; the state at
    the abort has no final plan. *)
Theorem run_aborts_only_without_destination (DEST_CSV : list Destination)
    (ATTR_CSV : list Attraction) (user_request : string) (n : string)
    (e : error) (s : AgentState) :
  invoke DEST_CSV ATTR_CSV user_request = Aborted n e s ->
  let c := parse_constraints (strip user_request) in
  n = "build_itinerary"%string
  /\ e = TypeError "'NoneType' object is not subscriptable"
  /\ search_destinations DEST_CSV (region c) (interests c) = []
  /\ st_selected_destination s = Some None
  /\ st_final_plan s = None.
Proof.
  intros Hrun c.
  destruct (search_destinations DEST_CSV (region c) (interests c))
    as [|d ds] eqn:Es.
  - rewrite (invoke_no_destination DEST_CSV ATTR_CSV user_request Es) in Hrun.
    injection Hrun as <- <- <-. repeat split.
  - exfalso.
    destruct (invoke_with_destination DEST_CSV ATTR_CSV user_request)
      as (s0 & _ & _ & _ & Hfin & _).
    + fold c. rewrite Es. discriminate.
    + rewrite Hfin in Hrun. discriminate.
Qed.

Lemma run_aborts_only_without_destination_witness :
  let s := mkState (Some "5 day trip in asia"%string)
             (Some (parse_constraints (strip "5 day trip in asia")))
             (Some []) (Some None) None None None None
             [H_parse_request (parse_constraints (strip "5 day trip in asia"));
              H_propose_options []; H_choose_destination None Inf] in
  let c := parse_constraints (strip "5 day trip in asia") in
  "build_itinerary"%string = "build_itinerary"%string
  /\ TypeError "'NoneType' object is not subscriptable"
     = TypeError "'NoneType' object is not subscriptable"
  /\ search_destinations sample_dest_rows (region c) (interests c) = []
  /\ st_selected_destination s = Some None
  /\ st_final_plan s = None.
Proof.
  intros s.
  apply (run_aborts_only_without_destination sample_dest_rows sample_attr_rows
           "5 day trip in asia" "build_itinerary"
           (TypeError "'NoneType' object is not subscriptable") s).
  vm_compute. reflexivity.
Defined.

(** X19. A run whose search finds a destination goes through the seven nodes in
    order and finishes: it has selected the destination of one of the
    options, holds an itinerary with the days numbered from 1 to [days], a
    breakdown whose flag is the comparison of its grand total with the
    budget, and a final plan. *)
Theorem run_finishes_with_destination (DEST_CSV : list Destination)
    (ATTR_CSV : list Attraction) (user_request : string) :
  let c := parse_constraints (strip user_request) in
  let options :=
    propose_trip_concepts c
      (search_destinations DEST_CSV (region c) (interests c)) in
  search_destinations DEST_CSV (region c) (interests c) <> [] ->
  exists (s : AgentState) (opt : Concept) (it : Itinerary) (b : Budget),
    invoke DEST_CSV ATTR_CSV user_request = Finished s
    /\ In opt options
    /\ st_constraints s = Some c
    /\ st_selected_destination s = Some (Some (c_destination opt))
    /\ st_itinerary s = Some it
    /\ map day (plan it) = range1 (days c)
    /\ st_budget s = Some b
    /\ within_budget b = Qle_bool (grand_total_est b) (float (budget c))
    /\ st_final_plan s <> None
    /\ map node (st_history s)
       = ["parse_request"; "propose_options"; "choose_destination";
          "build_itinerary"; "estimate_budget"; "validate_adjust";
          "finalize"]%string.
Proof.
  intros c options Hfound.
  apply invoke_with_destination. fold c.
  destruct (search_destinations DEST_CSV (region c) (interests c));
    [congruence | discriminate].
Qed.

Lemma run_finishes_with_destination_witness :
  let c := parse_constraints (strip "a 3-day trip to europe for 2 people") in
  let options :=
    propose_trip_concepts c
      (search_destinations sample_dest_rows (region c) (interests c)) in
  exists (s : AgentState) (opt : Concept) (it : Itinerary) (b : Budget),
    invoke sample_dest_rows sample_attr_rows "a 3-day trip to europe for 2 people"
    = Finished s
    /\ In opt options
    /\ st_constraints s = Some c
    /\ st_selected_destination s = Some (Some (c_destination opt))
    /\ st_itinerary s = Some it
    /\ map day (plan it) = range1 (days c)
    /\ st_budget s = Some b
    /\ within_budget b = Qle_bool (grand_total_est b) (float (budget c))
    /\ st_final_plan s <> None
    /\ map node (st_history s)
       = ["parse_request"; "propose_options"; "choose_destination";
          "build_itinerary"; "estimate_budget"; "validate_adjust";
          "finalize"]%string.
Proof.
  apply (run_finishes_with_destination sample_dest_rows sample_attr_rows
           "a 3-day trip to europe for 2 people").
  vm_compute. discriminate.
Defined.

(* ------------------------------------------------------------------ *)
(** ** [_safe_int] and the constraints of [parse_request] *)

Lemma digit_facts (c : ascii) :
  is_digit c = true ->
  is_c_space c = false /\ Ascii.eqb c "-" = false /\ Ascii.eqb c "+" = false
  /\ Ascii.eqb c "_" = false
  /\ 0 <= Z.of_nat (nat_of_ascii c) - 48 <= 9.
Proof.
  intros H. apply is_digit_cases in H. cbn in H.
  repeat (destruct H as [<-|H]; [repeat split; cbn; lia|]). contradiction.
Qed.

Lemma rstrip_no_space (sp : ascii -> bool) (t : list ascii) :
  forallb (fun c => negb (sp c)) t = true ->
  rstrip_by sp (string_of_list_ascii t) = string_of_list_ascii t.
Proof.
  induction t as [|c t IH]; cbn [forallb string_of_list_ascii rstrip_by];
    [reflexivity|].
  intros H. apply andb_true_iff in H. destruct H as [Hc Ht].
  rewrite (IH Ht). destruct (string_of_list_ascii t); [|reflexivity].
  destruct (sp c); [discriminate Hc | reflexivity].
Qed.

(** The value of a run of digits read after [acc]. *)
Lemma digits_value_bound (t : list ascii) :
  forallb is_digit t = true ->
  forall acc : Z,
    exists v : Z,
      digits_value acc t = Some (acc * 10 ^ Z.of_nat (List.length t) + v)
      /\ 0 <= v < 10 ^ Z.of_nat (List.length t).
Proof.
  induction t as [|c t IH]; intros H acc.
  - exists 0. cbn. split; [f_equal; lia | lia].
  - cbn [forallb] in H. apply andb_true_iff in H. destruct H as [Hc Ht].
    destruct (digit_facts c Hc) as (_ & _ & _ & _ & Hv).
    cbn [digits_value]. rewrite Hc.
    destruct (IH Ht (10 * acc + (Z.of_nat (nat_of_ascii c) - 48))) as (v & -> & Hb).
    set (p := 10 ^ Z.of_nat (List.length t)) in *.
    assert (Hp : 10 ^ Z.of_nat (List.length (c :: t)) = 10 * p).
    { cbn [List.length]. rewrite Nat2Z.inj_succ, Z.pow_succ_r by lia. reflexivity. }
    rewrite Hp.
    exists ((Z.of_nat (nat_of_ascii c) - 48) * p + v). split; [f_equal; ring|].
    assert (0 < p) by (apply Z.pow_pos_nonneg; lia). nia.
Qed.

(** [int] of a non-empty run of digits is its value. *)
Lemma int_of_digit_text (t : list ascii) :
  t <> [] ->
  forallb is_digit t = true ->
  exists v : Z,
    int_of_string (string_of_list_ascii t) = Some v
    /\ 0 <= v < 10 ^ Z.of_nat (List.length t).
Proof.
  intros Hne Hd. destruct t as [|c t]; [congruence|].
  pose proof Hd as Hd'. cbn [forallb] in Hd'. apply andb_true_iff in Hd'.
  destruct Hd' as [Hc Ht].
  destruct (digit_facts c Hc) as (Hsp & Hm & Hp & _ & _).
  unfold int_of_string.
  assert (Hl : lstrip_by is_c_space (string_of_list_ascii (c :: t))
               = string_of_list_ascii (c :: t)).
  { cbn [string_of_list_ascii lstrip_by]. rewrite Hsp. reflexivity. }
  rewrite Hl, rstrip_no_space.
  - rewrite list_ascii_of_string_of_list_ascii. rewrite Hm, Hp, Hc.
    destruct (digits_value_bound (c :: t) Hd 0) as (v & Hv & Hb).
    exists v. split; [|exact Hb]. rewrite Hv. reflexivity.
  - clear - Hd. induction (c :: t) as [|x xs IH]; [reflexivity|].
    cbn [forallb] in Hd |- *. apply andb_true_iff in Hd. destruct Hd as [Hx Hxs].
    destruct (digit_facts x Hx) as (-> & _). cbn [negb andb]. exact (IH Hxs).
Qed.


(** A greedy repetition of [\d] consumes digits, at least [lo] and at most
    [n] of them. *)
Lemma iterate_digits (n : nat) :
  forall (lo : nat) prev rest caps c rest' caps',
    In (c, rest', caps') (iterate (matches Digit) n lo prev rest caps) ->
    digit_text lo n c.
Proof.
  unfold digit_text.
  induction n as [|n IH]; intros lo prev rest caps c rest' caps' Hin;
    cbn [iterate] in Hin.
  - destruct (Nat.eqb lo 0) eqn:E; cbn in Hin; [|contradiction].
    apply Nat.eqb_eq in E. destruct Hin as [H|[]]. injection H as <- _ _.
    cbn. split; [reflexivity | lia].
  - apply in_app_or in Hin. destruct Hin as [Hin|Hin].
    + apply in_flat_map in Hin. destruct Hin as ([[c1 rest1] caps1] & H1 & Hin).
      cbn [matches] in H1. destruct rest as [|a t]; [contradiction|].
      destruct (is_digit a) eqn:Ha; [|contradiction].
      destruct H1 as [H1|[]]. injection H1 as <- <- <-.
      apply in_map_iff in Hin. destruct Hin as ([[c2 rest2] caps2] & E & H2).
      injection E as <- _ _.
      destruct (IH _ _ _ _ _ _ _ H2) as [Hd Hl].
      cbn [app forallb List.length]. rewrite Ha, Hd. split; [reflexivity | lia].
    + destruct (Nat.eqb lo 0) eqn:E; cbn in Hin; [|contradiction].
      apply Nat.eqb_eq in E. destruct Hin as [H|[]]. injection H as <- _ _.
      cbn. split; [reflexivity | lia].
Qed.

Lemma re_budget_groups (g : nat) : group_pattern_has g (digit_text 3 6) re_budget.
Proof.
  unfold re_budget, digits, star, opt. cbn [group_pattern_has cat lit].
  repeat match goal with
         | |- _ /\ _ => split
         | |- True => exact I
         | |- _ -> _ => intro
         | |- forall _, _ => intro
         | H : In _ (matches (Rep Digit 3 (Some 6%nat)) _ _ _) |- _ =>
             exact (iterate_digits _ _ _ _ _ _ _ _ H)
         end.
Qed.

Lemma safe_int_below (x : option string) (default : Z) (lo hi : nat) :
  (1 <= lo)%nat ->
  (forall s, x = Some s ->
             exists t, s = string_of_list_ascii t /\ digit_text lo hi t) ->
  0 <= default < 10 ^ Z.of_nat hi ->
  0 <= _safe_int x default < 10 ^ Z.of_nat hi.
Proof.
  intros Hlo Hx Hdef. unfold _safe_int. destruct x as [s|]; [|exact Hdef].
  destruct (Hx s eq_refl) as (t & -> & Hd & Hlen).
  assert (Hne : t <> []) by (destruct t; [cbn in Hlen; lia | discriminate]).
  destruct (int_of_digit_text t Hne Hd) as (v & -> & Hv).
  assert (10 ^ Z.of_nat (List.length t) <= 10 ^ Z.of_nat hi)
    by (apply Z.pow_le_mono_r; lia).
  lia.
Qed.

Lemma m_group_text (P : list ascii -> Prop) (m : captures) (g : nat) :
  group_has g P m ->
  forall s, m_group m g = Some s -> exists t, s = string_of_list_ascii t /\ P t.
Proof.
  intros Hm s Hs. unfold m_group in Hs.
  destruct (group m g) as [t|] eqn:E; [|discriminate].
  injection Hs as <-. exists t. split; [reflexivity | exact (Hm t E)].
Qed.

(** X21. For every state, the budget stored by the extraction stage is an
    integer between 0 and 999999; it is the default 2000 when the text of
    the request has no match of the budget pattern. *)
Theorem parsed_budget_in_range (state : AgentState) :
  exists (s' : AgentState) (c : Constraints),
    parse_request state = Ok s'
    /\ st_constraints s' = Some c
    /\ 0 <= budget c <= 999999
    /\ (re_search re_budget (lower (request_text state)) = None ->
        budget c = 2000).
Proof.
  eexists. eexists. split; [reflexivity|]. split; [reflexivity|].
  cbn [budget parse_constraints].
  set (low := lower (request_text state)).
  split; [|intros ->; reflexivity].
  destruct (re_search re_budget low) as [m|] eqn:E; [|lia].
  assert (H : 0 <= _safe_int (or_else (m_group m 1) (m_group m 2)) 2000
                < 10 ^ Z.of_nat 6).
  { apply (safe_int_below _ _ 3 6); [lia| |cbn; lia].
    pose proof (search_from_group_has 1 _ re_budget (re_budget_groups 1) _ _ _ E) as H1.
    pose proof (search_from_group_has 2 _ re_budget (re_budget_groups 2) _ _ _ E) as H2.
    intros s Hs. unfold or_else in Hs.
    destruct (truthy (m_group m 1));
      [exact (m_group_text _ m 1 H1 s Hs) | exact (m_group_text _ m 2 H2 s Hs)]. }
  change (10 ^ Z.of_nat 6) with 1000000 in H. lia.
Qed.

Lemma first_contained_spec (candidates : list string) (text : string) :
  match first_contained candidates text with
  | Some x => In x candidates /\ contains x text = true
  | None => forall x, In x candidates -> contains x text = false
  end.
Proof.
  unfold first_contained.
  destruct (find (fun x => contains x text) candidates) as [x|] eqn:E.
  - exact (find_some _ _ E).
  - exact (find_none _ _ E).
Qed.

(** X22. For every state, the constraints stored by the extraction stage have
    the origin Boston and the flight estimate 450; the region is absent,
    when none of the three region words occurs in the lower-cased text, or
    one of them that occurs; the pace is slow, medium or fast; the month
    hint is absent or the capitalised name of a month that occurs in the
    text. *)
Theorem parsed_vocabulary (state : AgentState) :
  let low := lower (request_text state) in
  exists (s' : AgentState) (c : Constraints),
    parse_request state = Ok s'
    /\ st_constraints s' = Some c
    /\ origin c = "Boston"%string
    /\ flight_est_per_person c = float 450
    /\ match region c with
       | Some r => In r ["europe"; "asia"; "americas"]%string
                   /\ contains r low = true
       | None => forall r, In r ["europe"; "asia"; "americas"]%string ->
                           contains r low = false
       end
    /\ In (pace c) ["slow"; "medium"; "fast"]%string
    /\ match month_hint c with
       | Some h => exists mo, In mo months /\ contains mo low = true
                              /\ h = title mo
       | None => forall mo, In mo months -> contains mo low = false
       end.
Proof.
  intros low.
  eexists. eexists. split; [reflexivity|]. split; [reflexivity|].
  cbn [origin flight_est_per_person region pace month_hint parse_constraints].
  fold low.
  split; [reflexivity|]. split; [reflexivity|].
  split; [exact (first_contained_spec _ low)|]. split.
  - pose proof (first_contained_spec ["slow"; "medium"; "fast"]%string low) as H.
    destruct (first_contained ["slow"; "medium"; "fast"]%string low) as [p|].
    + exact (proj1 H).
    + cbn. auto.
  - pose proof (first_contained_spec months low) as H.
    destruct (first_contained months low) as [mo|]; cbn [option_map].
    + exists mo. destruct H. auto.
    + exact H.
Qed.

Lemma NoDup_firstn {A : Type} (n : nat) (l : list A) :
  NoDup l -> NoDup (firstn n l).
Proof.
  intros H. rewrite <- (firstn_skipn n l) in H.
  exact (NoDup_app_remove_r _ _ H).
Qed.

Lemma possible_NoDup : NoDup possible.
Proof.
  unfold possible.
  repeat (constructor;
          [cbn; intros H;
           repeat (destruct H as [H|H]; [discriminate H|]); exact H|]).
  constructor.
Qed.

(** X23. For every state, the interests stored by the extraction stage are one
    to three different words of the vocabulary, in vocabulary order: the
    first three vocabulary words that occur in the lower-cased text, or food
    and museums when none occurs. *)
Theorem parsed_interests (state : AgentState) :
  let low := lower (request_text state) in
  let found := filter (fun k => contains k low) possible in
  exists (s' : AgentState) (c : Constraints),
    parse_request state = Ok s'
    /\ st_constraints s' = Some c
    /\ (1 <= List.length (interests c) <= 3)%nat
    /\ NoDup (interests c)
    /\ Forall (fun k => In k possible) (interests c)
    /\ (found = [] -> interests c = ["food"; "museums"]%string)
    /\ (found <> [] ->
        interests c = firstn 3 found
        /\ Forall (fun k => contains k low = true) (interests c)).
Proof.
  intros low found.
  eexists. eexists. split; [reflexivity|]. split; [reflexivity|].
  cbn [interests parse_constraints]. fold low. fold found.
  assert (Hnd : NoDup found) by (apply NoDup_filter; apply possible_NoDup).
  assert (Hin : Forall (fun k => In k possible /\ contains k low = true) found).
  { apply Forall_forall. intros k Hk. apply filter_In in Hk. exact Hk. }
  destruct found as [|x l] eqn:Ef.
  - split; [cbn; lia|]. split.
    { constructor; [cbn; intros [H|[]]; discriminate H|].
      constructor; [cbn; tauto | constructor]. }
    split.
    { constructor; [cbn; auto 20|]. constructor; [cbn; auto 20 | constructor]. }
    split; [reflexivity | congruence].
  - rewrite <- Ef in *.
    assert (Hsub : forall k, In k (firstn 3 found) -> In k found)
      by (intros k; apply in_firstn).
    split.
    { rewrite length_firstn. rewrite Ef at 1 2. cbn [List.length]. lia. }
    split; [apply NoDup_firstn; exact Hnd|].
    rewrite Forall_forall in Hin.
    split; [apply Forall_forall; intros k Hk; exact (proj1 (Hin k (Hsub k Hk)))|].
    split; [rewrite Ef; discriminate|].
    intros _. split; [reflexivity|].
    apply Forall_forall. intros k Hk. exact (proj2 (Hin k (Hsub k Hk))).
Qed.
